(** * Fake_Finance_News: the forum fetcher of [main.py]

    A shallow embedding of class [Fetcher]: the binary search over the
    reverse-chronological listing pages, the page window fetched around the
    page it finds, the per-article detail fetch and the worker pool that
    runs the detail fetches.

    Python objects live in a store ([heap]) and are passed by reference
    ([loc]); methods are computations in a state-and-exception monad over
    the fields of [self]; everything the browser shows, and what the
    console does with a line, is read from a [Source].

    Of the lines the program prints, the one of [get_article_detail]
    holds the title of a post, which is any text: it is printed through
    [src_print]. The other lines hold the stock code, page numbers and
    dates; they are taken to print and are left out. *)

From Equations Require Import Equations.
From stdpp Require Import base relations list strings pretty gmap.
From Stdlib Require Import ZArith Lia.

Open Scope Z_scope.

(** ** Exceptions and results *)

(** The exceptions the program can meet: its own [PageNotFound], the two
    DrissionPage errors that [__main__] catches, the built-in ones raised
    by indexing, [int], [re.search(...).group], [json.loads], dictionary
    access and [strptime], the [MarkupError] of [rich.print], and any
    other exception, given by the name of its class. *)
Inductive exn : Set :=
| PageNotFound
| ElementNotFoundError
| WaitTimeoutError
| IndexError
| ValueError
| AttributeError
| KeyError
| JSONDecodeError
| MarkupError
| OtherError (name : string).

#[global] Instance exn_eq_dec : EqDecision exn.
Proof. solve_decision. Defined.

(** What evaluating a Python expression gives: a value or an exception. *)
Inductive result (A : Type) : Type :=
| Ok (a : A)
| Raise (e : exn).
Arguments Ok {A} a.
Arguments Raise {A} e.

(** ** Dates *)

(** [datetime.date]: compared as the tuple (year, month, day). *)
Record date : Set := mkDate { year : Z; month : Z; day : Z }.

(** [datetime.datetime], as [strptime] with [DT_FMT] builds it. *)
Record datetime : Set := mkDatetime {
  dt_year : Z; dt_month : Z; dt_day : Z;
  dt_hour : Z; dt_minute : Z; dt_second : Z
}.

(** [str(n)] padded with zeros to two and to four digits *)
Definition pad2 (n : Z) : string :=
  if n <? 10 then "0" +:+ pretty n else pretty n.

Definition pad4 (n : Z) : string :=
  if n <? 10 then "000" +:+ pretty n
  else if n <? 100 then "00" +:+ pretty n
  else if n <? 1000 then "0" +:+ pretty n
  else pretty n.

(** [str(t)] *)
Definition datetime_str (t : datetime) : string :=
  pad4 (dt_year t) +:+ "-" +:+ pad2 (dt_month t) +:+ "-" +:+ pad2 (dt_day t)
  +:+ " " +:+ pad2 (dt_hour t) +:+ ":" +:+ pad2 (dt_minute t) +:+ ":"
  +:+ pad2 (dt_second t).

(** [datetime.date()] *)
Definition datetime_date (t : datetime) : date :=
  mkDate (dt_year t) (dt_month t) (dt_day t).

(** [a < b] on dates *)
Definition date_ltb (a b : date) : bool :=
  (year a <? year b)
  || ((year a =? year b)
      && ((month a <? month b)
          || ((month a =? month b) && (day a <? day b)))).

(** [a > b] on dates *)
Definition date_gtb (a b : date) : bool := date_ltb b a.

Definition date_lt (a b : date) : Prop := date_ltb a b = true.
Definition date_le (a b : date) : Prop := date_ltb b a = false.

(** ** Python list indexing *)

(** [xs[i]]: a negative index counts from the end, an index outside
    [-len, len) raises [IndexError]. *)
Definition py_index {A} (xs : list A) (i : Z) : result A :=
  let n := Z.of_nat (length xs) in
  let j := if i <? 0 then n + i else i in
  if (0 <=? j) && (j <? n) then
    match xs !! Z.to_nat j with
    | Some x => Ok x
    | None => Raise IndexError
    end
  else Raise IndexError.

(** [range(a, b)] *)
Definition py_range (a b : Z) : list Z :=
  (fun k : nat => a + Z.of_nat k) <$> seq 0 (Z.to_nat (b - a)).

(** ** Articles and the store of objects *)

(** [@dataclass class Article] *)
Record Article : Set := mkArticle {
  title : string;
  url : string;
  published : datetime;
  content : string
}.

(** A reference to an [Article] object: its position in the store. *)
Abbreviation loc := nat.

(** One decoded entry of [article_list["re"]], [post_publish_time] after
    [strptime]. [post_id] is held as the text the f-string renders. *)
Record RawPost : Set := mkRawPost {
  post_title : string;
  post_id : string;
  post_publish_time : datetime
}.

(** ** What the browser shows *)

(** What page 1 shows to [get_total_page]: the address the session ends on
    and the pagination block. [pg_pagers] is the outcome of waiting for the
    block and listing its <li> elements; each element is given by the
    outcome of [int] on its text. *)
Record PagingDoc : Type := mkPagingDoc {
  pg_url : string;
  pg_pagers : result (list (result Z))
}.

(** The detail tab of an article: the outcomes of [self.page.new_tab()],
    of [new_tab.get], of the wait for the news text, of reading its text
    and of [new_tab.close()]. *)
Record DetailDoc : Type := mkDetailDoc {
  dd_new_tab : result unit;
  dd_get : result unit;
  dd_displayed : result unit;
  dd_newstext : result string;
  dd_close : result unit
}.

(** The forum, the console and the scheduler as the fetcher observes them.
    - [src_paging]: the document [get_total_page] reads;
    - [src_listing t pn]: what the listing session shows when, having
      loaded [t] pages before, it loads listing page [pn]: an exception
      when the page does not load or holds no [article_list] that decodes,
      and otherwise the entries of the list, each one the entry decoded or
      the exception its fields raise ([KeyError], or [ValueError] from
      [strptime]) when the generator comes to it. A page may show
      something else each time it is loaded;
    - [src_print text]: what [rich.print] does with the line [text]; it
      raises [MarkupError] for a line that closes a tag that is not open;
    - [src_detail u]: the detail tab for the article at address [u];
    - [src_finish pn k]: which of the running workers is the [k]-th to
      finish while page [pn] is processed (taken modulo the number of
      running workers);
    - [src_reacts pn k]: whether, when the [k]-th task to finish has
      finished and the result iterator has come to a future that holds an
      exception, the iterator cancels the futures not yet started before
      the worker takes its next task. *)
Record Source : Type := mkSource {
  src_paging : PagingDoc;
  src_listing : nat -> Z -> result (list (result RawPost));
  src_print : string -> result unit;
  src_detail : string -> DetailDoc;
  src_finish : Z -> nat -> nat;
  src_reacts : Z -> nat -> bool
}.

(** ** Effects *)

(** What the fetcher does to the outside, in order. *)
Inductive event : Type :=
| EvGet (pn : Z) (u : string)  (* self.page.get(u), u = self.get_url(pn) *)
| EvNewTab                  (* self.page.new_tab() *)
| EvTabGet (u : string)     (* new_tab.get(article.url) *)
| EvSetContent (l : loc)    (* article.content = ... *)
| EvTabClose.               (* new_tab.close() *)

(** The fields of [self], the store of [Article] objects, the references
    the generator has yielded and the trace of effects. [self.page] is the
    listing session the [EvGet] events act on. *)
Record Fetcher : Type := mkFetcher {
  code : string;
  date_ : date;
  total_page : Z;
  heap : list Article;
  out : list loc;
  trace : list event
}.

(** The listing pages loaded, in a trace, and how many the session of a
    fetcher has loaded. *)
Definition listing_gets (t : list event) : list Z :=
  omap (fun e => match e with EvGet pn _ => Some pn | _ => None end) t.

Definition loads_made (s : Fetcher) : nat := length (listing_gets (trace s)).

(** [Fetcher.__init__] *)
Definition Fetcher_init (code : string) (d : date) : Fetcher :=
  mkFetcher code d (-1) [] [] [].

(** Computations over the fetcher. [None] is no Python behaviour: it marks
    the use of a reference that names no object and a wait on a future
    that no worker will ever complete. *)
Definition M (A : Type) : Type := Fetcher -> option (result A * Fetcher).

Definition ret {A} (a : A) : M A := fun s => Some (Ok a, s).

Definition bind {A B} (m : M A) (k : A -> M B) : M B :=
  fun s =>
    match m s with
    | Some (Ok a, s') => k a s'
    | Some (Raise e, s') => Some (Raise e, s')
    | None => None
    end.

(** [raise e] *)
Definition raise {A} (e : exn) : M A := fun s => Some (Raise e, s).

Definition lift {A} (r : result A) : M A := fun s => Some (r, s).

Definition stuck {A} : M A := fun _ => None.

Definition gets {A} (f : Fetcher -> A) : M A := fun s => Some (Ok (f s), s).

#[global] Instance M_ret : MRet M := @ret.
#[global] Instance M_bind : MBind M := fun A B k m => bind m k.

(** [try: body / except: handler / finally: fin]. The bare [except]
    catches every exception; [fin] runs on every path and an exception it
    raises replaces the outcome. *)
Definition try_except_finally {A} (body : M A) (handler : M A) (fin : M unit)
  : M A :=
  fun s =>
    match
      match body s with
      | Some (Raise _, s') => handler s'
      | other => other
      end
    with
    | Some (r, s1) =>
        match fin s1 with
        | Some (Ok _, s2) => Some (r, s2)
        | Some (Raise e, s2) => Some (Raise e, s2)
        | None => None
        end
    | None => None
    end.

Definition emit (e : event) : M unit :=
  fun s => Some (Ok tt, mkFetcher (code s) (date_ s) (total_page s) (heap s)
                          (out s) (trace s ++ [e])).

(** [yield l] *)
Definition yield (l : loc) : M unit :=
  fun s => Some (Ok tt, mkFetcher (code s) (date_ s) (total_page s) (heap s)
                          (out s ++ [l]) (trace s)).

(** [Article(...)]: a new object, referred to by its position in the store *)
Definition new_article (a : Article) : M loc :=
  fun s => Some (Ok (length (heap s)),
                 mkFetcher (code s) (date_ s) (total_page s) (heap s ++ [a])
                   (out s) (trace s)).

(** reading the object behind a reference *)
Definition load (l : loc) : M Article :=
  fun s => match heap s !! l with
           | Some a => Some (Ok a, s)
           | None => None
           end.

Definition set_content_of (text : string) (a : Article) : Article :=
  mkArticle (title a) (url a) (published a) text.

(** [article.content = text] *)
Definition set_content (l : loc) (text : string) : M unit :=
  fun s => match heap s !! l with
           | Some _ =>
               Some (Ok tt, mkFetcher (code s) (date_ s) (total_page s)
                              (alter (set_content_of text) l (heap s))
                              (out s) (trace s ++ [EvSetContent l]))
           | None => None
           end.

(** [self.total_page = n] *)
Definition set_total_page (n : Z) : M unit :=
  fun s => Some (Ok tt, mkFetcher (code s) (date_ s) n (heap s) (out s)
                          (trace s)).

(** [for x in xs: body(x)] *)
Fixpoint for_each {A} (xs : list A) (body : A -> M unit) : M unit :=
  match xs with
  | [] => ret tt
  | x :: xs' => body x;; for_each xs' body
  end.

(** A generator, as its consumers see it: starting it runs its body up to
    the loop that yields and gives the items still to be made, each made
    when the consumer asks for it. *)
Definition generator (A : Type) : Type := M (list (M A)).

(** The items a consumer gets by asking for one after the other, up to
    the exception that ends the generator, if one does. *)
Fixpoint drain {A} (items : list (M A)) : M (list A * option exn) :=
  match items with
  | [] => ret ([], None)
  | item :: items' =>
      fun s =>
        match item s with
        | Some (Ok x, s') =>
            match drain items' s' with
            | Some (Ok (xs, e), s'') => Some (Ok (x :: xs, e), s'')
            | other => other
            end
        | Some (Raise e, s') => Some (Ok ([], Some e), s')
        | None => None
        end
  end.

(** [list(g)] *)
Definition py_list {A} (g : generator A) : M (list A) :=
  items ← g;
  '(xs, e) ← drain items;
  match e with
  | Some e => raise e
  | None => ret xs
  end.

(** ** The methods of [Fetcher] *)

Definition error_url : string := "https://guba.eastmoney.com/error?type=1".

(** [self.start_url], set in [__init__] *)
Definition start_url (c : string) : string :=
  "https://guba.eastmoney.com/list," +:+ c.

(** [get_url] *)
Definition get_url (c : string) (pn : Z) : string :=
  start_url c +:+ "_" +:+ pretty pn +:+ ".html".

(** [get_article_url] *)
Definition get_article_url (c : string) (post : string) : string :=
  "https://guba.eastmoney.com/news," +:+ c +:+ "," +:+ post +:+ ".html".

(** ThreadPoolExecutor(max_workers=4) *)
Definition max_workers : nat := 4.

(** The pool while one [executor.map] call is served: the tasks not yet
    started, the tasks a worker is running, and the futures in the order
    of submission ([None]: not finished, or cancelled). Tasks carry their
    submission index. *)
Record pool : Type := mkPool {
  queue : list (nat * loc);
  running : list (nat * loc);
  futures : list (option (result loc))
}.

(** [Article(title=..., url=..., published=..., content="")] as
    [get_article_list] builds it from one decoded entry *)
Definition make_article (c : string) (article : RawPost) : Article :=
  mkArticle (post_title article) (get_article_url c (post_id article))
    (post_publish_time article) "".

(** The line [get_article_detail] prints:
    [f"[green] {article.published} {article.title}"] *)
Definition detail_line (a : Article) : string :=
  "[green] " +:+ datetime_str (published a) +:+ " " +:+ title a.

(** The result iterator has come to a future that holds an exception:
    the futures before it all hold results. *)
Fixpoint seen_raise (fs : list (option (result loc))) : bool :=
  match fs with
  | Some (Ok _) :: fs' => seen_raise fs'
  | Some (Raise _) :: _ => true
  | _ => false
  end.

Section Methods.

Variable src : Source.

(** [get_article_list]: the page is loaded and its list decoded when the
    generator is started; an article is made from an entry when the
    consumer asks for it. *)
Definition get_article_list (pn : Z) : generator loc :=
  c ← gets code;
  t ← gets loads_made;
  emit (EvGet pn (get_url c pn));;
  articles ← lift (src_listing src t pn);
  ret ((fun entry =>
          article ← lift entry;
          new_article (make_article c article)) <$> articles).

(** [get_total_page] *)
Definition get_total_page : M unit :=
  tp ← gets total_page;
  if tp =? -1 then
    c ← gets code;
    emit (EvGet 1 (get_url c 1));;
    if String.eqb (pg_url (src_paging src)) error_url then raise PageNotFound
    else
      pagers ← lift (pg_pagers (src_paging src));
      last_page ← lift (py_index pagers (-2));
      n ← lift last_page;
      set_total_page n
  else ret tt.

(** [get_article_detail] *)
Definition get_article_detail (article : loc) : M loc :=
  a ← load article;
  lift (src_print src (detail_line a));;
  lift (dd_new_tab (src_detail src (url a)));;
  emit EvNewTab;;
  try_except_finally
    (a ← load article;
     emit (EvTabGet (url a));;
     lift (dd_get (src_detail src (url a)));;
     lift (dd_displayed (src_detail src (url a)));;
     text ← lift (dd_newstext (src_detail src (url a)));
     set_content article text;;
     ret article)
    (ret article)
    (lift (dd_close (src_detail src (url a)));;
     emit EvTabClose).

(** [get_date_range] *)
Definition get_date_range (articles : generator loc) : M (date * date) :=
  articles ← py_list articles;
  first ← lift (py_index articles 0);
  a0 ← load first;
  last ← lift (py_index articles (-1));
  a1 ← load last;
  ret (datetime_date (published a0), datetime_date (published a1)).

(** The [while start <= end] loop of [get_articles_with_date]; it returns
    [start] and [end] as the loop leaves them. *)
Equations? search_loop (start end_ : Z) (s : Fetcher)
  : option (result (Z * Z) * Fetcher) by wf (Z.to_nat (end_ - start + 1)) lt :=
  search_loop start end_ s with decide (start <= end_) := {
    | right _ := Some (Ok (start, end_), s)
    | left _ with get_date_range (get_article_list ((start + end_) / 2)) s := {
        | None := None
        | Some (Raise e, s') := Some (Raise e, s')
        | Some (Ok (earliest_date_mid, latest_date_mid), s')
            with date_gtb (date_ s') earliest_date_mid := {
            | true := search_loop start ((start + end_) / 2 - 1) s'
            | false with date_ltb (date_ s') latest_date_mid := {
                | true := search_loop ((start + end_) / 2 + 1) end_ s'
                | false := search_loop start ((start + end_) / 2 - 1) s' } } } }.
Proof.
  all: assert (start <= (start + end_) / 2 <= end_)
    by (split; [apply Z.div_le_lower_bound | apply Z.div_le_upper_bound]; lia);
    lia.
Qed.

(** One pass through the body of that loop, from [start <= end]: the
    bounds the next test of the loop condition sees. *)
Definition loop_body (start end_ : Z) : M (Z * Z) :=
  let mid := (start + end_) / 2 in
  '(earliest_date_mid, latest_date_mid) ←
    get_date_range (get_article_list mid);
  d ← gets date_;
  if date_gtb d earliest_date_mid then ret (start, mid - 1)
  else if date_ltb d latest_date_mid then ret (mid + 1, end_)
  else ret (start, mid - 1).

(** The loop as a transition system on [(start, end, self)]. *)
Inductive loop_step : Z * Z * Fetcher -> Z * Z * Fetcher -> Prop :=
| loop_step_intro start end_ s start' end' s' :
    start <= end_ ->
    loop_body start end_ s = Some (Ok (start', end'), s') ->
    loop_step (start, end_, s) (start', end', s').

(** A worker finishes the task in slot [j] of [running]: the call's outcome
    is stored in the task's future; when [cancel] says so of the futures
    as they are then, the tasks not yet started are cancelled; and the
    worker takes the next task that waits, if there is one. *)
Definition pool_finish (fn : loc -> M loc) (j : nat)
    (cancel : list (option (result loc)) -> bool) (p : pool) : M pool :=
  match running p !! j with
  | None => ret p
  | Some (i, l) =>
      fun s =>
        match fn l s with
        | Some (r, s') =>
            let fs := <[i := Some r]> (futures p) in
            let waiting := if cancel fs then [] else queue p in
            Some (Ok (mkPool (drop 1 waiting)
                        (delete j (running p) ++ take 1 waiting) fs), s')
        | None => None
        end
  end.

(** The workers finish up to [n] tasks one after the other; the [k]-th to
    finish is the one in slot [pick k] (modulo the number of running
    tasks). Once the result iterator has come to a future that holds an
    exception, the futures not yet started are cancelled, as soon as
    [reacts] says so; the tasks that run are finished all the same. *)
Fixpoint pool_run (fn : loc -> M loc) (pick : nat -> nat)
    (reacts : nat -> bool) (n k : nat) (p : pool) : M pool :=
  match n with
  | O => ret p
  | S n' =>
      p' ← pool_finish fn (pick k `mod` length (running p))%nat
             (fun fs => seen_raise fs && reacts k) p;
      pool_run fn pick reacts n' (S k) p'
  end.

(** The result iterator of [executor.map] under [yield from]: the futures
    are waited for in the order of submission, each result is yielded, an
    exception held by a future is raised. A future that was cancelled
    comes after the one whose exception is raised. *)
Fixpoint yield_results (fs : list (option (result loc))) : M unit :=
  match fs with
  | [] => ret tt
  | None :: _ => stuck
  | Some r :: fs' => l ← lift r; yield l;; yield_results fs'
  end.

(** Modelled from the spec: [ThreadPoolExecutor.map] is the Python
    standard library, not this repository; the spec describes it as a
    bounded worker pool with a result buffer keyed by submission index.
    The items are taken from the generator and submitted one after the
    other; at most [max_workers] run at a time and they finish in the
    order [pick] dictates. When the generator ends with an exception, the
    call raises it, yielding nothing, after the tasks submitted until then
    have run (the executor is shut down on the way out of its [with]
    block). Otherwise the results are yielded in the order of submission,
    up to the first future that holds an exception. *)
Definition executor_map (fn : loc -> M loc) (pick : nat -> nat)
    (reacts : nat -> bool) (iterable : generator loc) : M unit :=
  made ← iterable;
  '(items, e) ← drain made;
  let n := length items in
  let tasks := zip (seq 0 n) items in
  let submitted :=
    mkPool (drop max_workers tasks) (take max_workers tasks)
      (replicate n None) in
  match e with
  | Some e =>
      pool_run fn pick (fun _ => false) n 0 submitted;;
      raise e
  | None =>
      p ← pool_run fn pick reacts n 0 submitted;
      yield_results (futures p)
  end.

(** The page window fetched after the search *)
Definition start_page_of (start : Z) : Z :=
  if start - 1 >? 0 then start - 1 else 1.

Definition end_page_of (end_ tp : Z) : Z :=
  if end_ + 1 <=? tp then end_ + 1 else tp.

(** The body of [for page in range(start_page, end_page + 1)] *)
Definition fetch_page (page : Z) : M unit :=
  executor_map get_article_detail (src_finish src page) (src_reacts src page)
    (get_article_list page).

(** [get_articles_with_date] *)
Definition get_articles_with_date : M unit :=
  get_total_page;;
  tp ← gets total_page;
  '(start, end_) ← search_loop 1 tp;
  let start_page := start_page_of start in
  tp' ← gets total_page;
  let end_page := end_page_of end_ tp' in
  for_each (py_range start_page (end_page + 1)) fetch_page.

End Methods.
(** ** Vocabulary of the statements *)

Definition with_trace (t : list event) (s : Fetcher) : Fetcher :=
  mkFetcher (code s) (date_ s) (total_page s) (heap s) (out s) t.

Definition with_heap (h : list Article) (s : Fetcher) : Fetcher :=
  mkFetcher (code s) (date_ s) (total_page s) h (out s) (trace s).

Definition with_out (o : list loc) (s : Fetcher) : Fetcher :=
  mkFetcher (code s) (date_ s) (total_page s) (heap s) o (trace s).

Definition with_total_page (n : Z) (s : Fetcher) : Fetcher :=
  mkFetcher (code s) (date_ s) n (heap s) (out s) (trace s).

(** The listing session has loaded page [pn]. *)
Definition after_get (pn : Z) (s : Fetcher) : Fetcher :=
  with_trace (trace s ++ [EvGet pn (get_url (code s) pn)]) s.

(** The entries of a listing that the generator turns into articles: those
    before the first one that raises. *)
Fixpoint decoded (entries : list (result RawPost)) : list RawPost :=
  match entries with
  | Ok p :: entries' => p :: decoded entries'
  | _ => []
  end.

(** The exception of the first entry that raises. *)
Fixpoint entries_failure (entries : list (result RawPost)) : option exn :=
  match entries with
  | [] => None
  | Ok _ :: entries' => entries_failure entries'
  | Raise e :: _ => Some e
  end.

(** ... and entries of it have become [Article] objects. *)
Definition after_listing (pn : Z) (posts : list RawPost) (s : Fetcher)
  : Fetcher :=
  with_heap (heap s ++ (make_article (code s) <$> posts)) (after_get pn s).

(** The state [list(self.get_article_list(pn))] leaves. *)
Definition after_probe (src : Source) (pn : Z) (s : Fetcher) : Fetcher :=
  match src_listing src (loads_made s) pn with
  | Ok entries => after_listing pn (decoded entries) s
  | Raise _ => after_get pn s
  end.

(** The dates of the first and the last entry of a listing. *)
Definition range_of (posts : list RawPost) : result (date * date) :=
  match posts with
  | [] => Raise IndexError
  | p :: ps =>
      Ok (datetime_date (post_publish_time p),
          datetime_date (post_publish_time (default p (last (p :: ps)))))
  end.

(** What [get_date_range] reads off listing page [pn] when it is the
    [t]-th load of the session. *)
Definition page_dates (src : Source) (t : nat) (pn : Z)
  : result (date * date) :=
  match src_listing src t pn with
  | Ok entries =>
      match entries_failure entries with
      | Some e => Raise e
      | None => range_of (decoded entries)
      end
  | Raise e => Raise e
  end.

(** The bounds one pass leaves, from the two dates of page [mid]. *)
Definition narrow (start end_ : Z) (d earliest latest : date) : Z * Z :=
  let mid := (start + end_) / 2 in
  if date_gtb d earliest then (start, mid - 1)
  else if date_ltb d latest then (mid + 1, end_)
  else (start, mid - 1).

(** The state after the listing pages [ps] were loaded one after the
    other. *)
Definition after_probes (src : Source) (ps : list Z) (s : Fetcher) : Fetcher :=
  fold_left (fun s' p => after_probe src p s') ps s.

(** A run of the search loop for target date [d], told without the state:
    the pages it loads, in order, the first of them as load [t] of the
    session, and how it ends. *)
Inductive search_run (src : Source) (d : date)
  : nat -> Z -> Z -> list Z -> result (Z * Z) -> Prop :=
| search_exit t start end_ :
    ~ start <= end_ ->
    search_run src d t start end_ [] (Ok (start, end_))
| search_raise t start end_ e :
    start <= end_ ->
    page_dates src t ((start + end_) / 2) = Raise e ->
    search_run src d t start end_ [(start + end_) / 2] (Raise e)
| search_pass t start end_ earliest latest ps r :
    start <= end_ ->
    page_dates src t ((start + end_) / 2) = Ok (earliest, latest) ->
    search_run src d (S t) (narrow start end_ d earliest latest).1
      (narrow start end_ d earliest latest).2 ps r ->
    search_run src d t start end_ ((start + end_) / 2 :: ps) r.

(** Page [i], whose first entry is dated [newest i] and whose last entry
    is dated [oldest i], has the date [d] within its span. *)
Definition covers (newest oldest : Z -> date) (d : date) (i : Z) : Prop :=
  date_le (oldest i) d /\ date_le d (newest i).

(** The test that sends the loop from page [i] to the pages before it. *)
Definition goes_left (newest oldest : Z -> date) (d : date) (i : Z) : Prop :=
  date_lt (newest i) d \/ date_le (oldest i) d.

(** [p] is the first page whose span contains [d]. *)
Definition first_covering (newest oldest : Z -> date) (d : date) (tp p : Z)
  : Prop :=
  1 <= p <= tp /\ covers newest oldest d p
  /\ forall q, 1 <= q < p -> ~ covers newest oldest d q.

(** No page contains [d], and [p] is where a page dated [d] would go:
    the pages before [p] are all newer than [d], the pages from [p] on are
    all older. *)
Definition insertion_boundary (newest oldest : Z -> date) (d : date)
    (tp p : Z) : Prop :=
  1 <= p <= tp + 1
  /\ (forall q, 1 <= q <= tp -> ~ covers newest oldest d q)
  /\ (forall q, 1 <= q < p -> date_lt d (oldest q))
  /\ (forall q, p <= q <= tp -> date_lt (newest q) d).

(** The number of passes a loop over [n] pages can make. *)
Definition pass_bound (n : Z) : Z :=
  if n <=? 0 then 0 else Z.log2 n + 1.

(** What [get_total_page] reads off page 1 once it has loaded it. *)
Definition discovered (src : Source) : result Z :=
  if String.eqb (pg_url (src_paging src)) error_url then Raise PageNotFound
  else
    match pg_pagers (src_paging src) with
    | Raise e => Raise e
    | Ok pagers =>
        match py_index pagers (-2) with
        | Raise e => Raise e
        | Ok last_page => last_page
        end
    end.

(** [k] calls of a method, one after the other. *)
Fixpoint call_times (m : M unit) (k : nat) : M unit :=
  match k with
  | O => ret tt
  | S k' => m;; call_times m k'
  end.

(** The news text a detail tab gives for address [u]. *)
Definition detail_text (src : Source) (u : string) : result string :=
  match dd_get (src_detail src u) with
  | Raise e => Raise e
  | Ok _ =>
      match dd_displayed (src_detail src u) with
      | Raise e => Raise e
      | Ok _ => dd_newstext (src_detail src u)
      end
  end.

(** Whether the detail fetch of the article [a] gets to its [try] block:
    the line is printed and the tab is opened. *)
Definition detail_opens (src : Source) (a : Article) : result unit :=
  match src_print src (detail_line a) with
  | Raise e => Raise e
  | Ok _ => dd_new_tab (src_detail src (url a))
  end.

(** What the detail fetch of the article [a] at [l] returns or raises. *)
Definition detail_return (src : Source) (l : loc) (a : Article)
  : result loc :=
  match detail_opens src a with
  | Raise e => Raise e
  | Ok _ =>
      match dd_close (src_detail src (url a)) with
      | Raise e => Raise e
      | Ok _ => Ok l
      end
  end.

(** The exception the detail fetch of the article [a] raises, when it
    raises one: that of the print, of opening the tab or of closing it. *)
Definition detail_failure (src : Source) (a : Article) : option exn :=
  match detail_opens src a with
  | Raise e => Some e
  | Ok _ =>
      match dd_close (src_detail src (url a)) with
      | Raise e => Some e
      | Ok _ => None
      end
  end.

(** An article after its detail fetch. *)
Definition fetched (src : Source) (a : Article) : Article :=
  match detail_opens src a, detail_text src (url a) with
  | Ok _, Ok text => set_content_of text a
  | _, _ => a
  end.

(** The effects of the detail fetch of the article [a] at [l]. *)
Definition detail_trace (src : Source) (l : loc) (a : Article) : list event :=
  match detail_opens src a with
  | Raise _ => []
  | Ok _ =>
      [EvNewTab; EvTabGet (url a)]
      ++ match detail_text src (url a) with
         | Ok _ => [EvSetContent l]
         | Raise _ => []
         end
      ++ match dd_close (src_detail src (url a)) with
         | Ok _ => [EvTabClose]
         | Raise _ => []
         end
  end.

(** The article of the entry [p] of a listing of stock code [c] once its
    detail fetch has returned: the fields of the entry and the news text,
    or an empty [content] where the text was not read. *)
Definition row_of (src : Source) (c : string) (p : RawPost) : Article :=
  mkArticle (post_title p) (get_article_url c (post_id p))
    (post_publish_time p)
    match detail_text src (get_article_url c (post_id p)) with
    | Ok text => text
    | Raise _ => ""
    end.

(** The state a detail fetch of the article [a] at [l] leaves. *)
Definition after_detail (src : Source) (l : loc) (a : Article) (s : Fetcher)
  : Fetcher :=
  with_trace (trace s ++ detail_trace src l a)
    (with_heap (<[l := fetched src a]> (heap s)) s).

(** The tasks of the pool that have not finished. *)
Definition pending (p : pool) : list (nat * loc) := running p ++ queue p.

(** The pool at the start of [executor.map] over [items]. *)
Definition pool_init (items : list loc) : pool :=
  let tasks := zip (seq 0 (length items)) items in
  mkPool (drop max_workers tasks) (take max_workers tasks)
    (replicate (length items) None).

(** What holds of the pool and of the fetcher while [executor.map] serves
    [items] with [get_article_detail], started in state [s0]: a task is
    waiting or running, or it has finished and its future holds what its
    detail fetch returned, or it was cancelled after a future before it
    came to hold an exception. *)
Record pool_inv (src : Source) (items : list loc) (s0 : Fetcher)
    (p : pool) (s : Fetcher) : Prop := mkPoolInv {
  inv_nodup : NoDup (pending p).*1;
  inv_task : forall i l, (i, l) ∈ pending p ->
    items !! i = Some l /\ futures p !! i = Some None;
  inv_future : forall i l a, items !! i = Some l -> heap s0 !! l = Some a ->
    (i, l) ∈ pending p
    \/ (futures p !! i = Some (Some (detail_return src l a))
        /\ heap s !! l = Some (fetched src a))
    \/ (futures p !! i = Some None
        /\ exists j e, (j < i)%nat /\ futures p !! j = Some (Some (Raise e)));
  inv_progress : running p = [] -> queue p = [];
  inv_width : (length (running p) <= max_workers)%nat;
  inv_len : length (futures p) = length items;
  inv_heap : forall l a, heap s0 !! l = Some a ->
    (heap s !! l = Some a \/ heap s !! l = Some (fetched src a))
    /\ (l ∉ items -> heap s !! l = Some a);
  inv_heap_len : length (heap s) = length (heap s0);
  inv_code : code s = code s0;
  inv_date : date_ s = date_ s0;
  inv_total : total_page s = total_page s0;
  inv_out : out s = out s0;
  inv_gets : listing_gets (trace s) = listing_gets (trace s0)
}.

(** The same forum with the workers finishing, and the result iterator
    reacting, at other times. *)
Definition with_schedule (finish : Z -> nat -> nat)
    (reacts : Z -> nat -> bool) (src : Source) : Source :=
  mkSource (src_paging src) (src_listing src) (src_print src)
    (src_detail src) finish reacts.

(** The assignments to [content] in a trace. *)
Definition content_writes (t : list event) : list loc :=
  omap (fun e => match e with EvSetContent l => Some l | _ => None end) t.

(** The events of the detail fetches in a trace. *)
Definition is_detail_event (e : event) : bool :=
  match e with EvGet _ _ => false | _ => true end.

Definition detail_events (t : list event) : list event :=
  List.filter is_detail_event t.

(** The entries of a page are listed newest first. *)
Definition newest_first (posts : list RawPost) : Prop :=
  forall i j p q, (i <= j)%nat -> posts !! i = Some p -> posts !! j = Some q ->
    date_le (datetime_date (post_publish_time q))
            (datetime_date (post_publish_time p)).

(** The pages of the window after a search that ended on page [p]. *)
Definition window_pages (tp p : Z) : list Z :=
  py_range (start_page_of p) (end_page_of (p - 1) tp + 1).

(** The detail tabs opened, and closed, in a trace. *)
Definition tabs_opened (t : list event) : nat :=
  length (List.filter (fun e => match e with EvNewTab => true | _ => false end)
            t).

Definition tabs_closed (t : list event) : nat :=
  length (List.filter
            (fun e => match e with EvTabClose => true | _ => false end) t).

(** ** The script under [if __name__ == "__main__"] *)

(** The exceptions the loop over the rows of the workbook catches. *)
Definition caught (e : exn) : bool :=
  match e with
  | PageNotFound | ElementNotFoundError | WaitTimeoutError => true
  | _ => false
  end.

(** [output = f"{code}.csv"] *)
Definition output_name (c : string) : string := c +:+ ".csv".

(** The rows [writer.writerow([article.title, article.url,
    article.published, article.content])] has written for the articles
    yielded: each row is the four fields of its article. No article is
    assigned to after it is yielded, so the fields are read where the run
    ends. *)
Definition rows_written (s : Fetcher) : list Article :=
  omap (fun l => heap s !! l) (out s).

(** The loop over the rows [(code, dt)] of the workbook. [forum c] is what
    the browser shows for stock code [c]; the files are given by the rows
    below their header line, and opening in mode "w" replaces a file of
    the same name. An exception that is not caught ends the loop. Reading
    the workbook, and starting and closing the browser of a row, are left
    out. *)
Fixpoint main (forum : string -> Source) (rows : list (string * datetime))
    (files : gmap string (list Article))
  : option (result unit * gmap string (list Article)) :=
  match rows with
  | [] => Some (Ok tt, files)
  | (c, dt) :: rest =>
      match get_articles_with_date (forum c)
              (Fetcher_init c (datetime_date dt)) with
      | None => None
      | Some (r, s) =>
          let files' := <[output_name c := rows_written s]> files in
          match r with
          | Ok _ => main forum rest files'
          | Raise e =>
              if caught e then main forum rest files'
              else Some (Raise e, files')
          end
      end
  end.

(** ** A forum to run the fetcher on *)

Definition sample_day (n : Z) : date := mkDate 2024 1 n.

Definition sample_post (name : string) (n : Z) : RawPost :=
  mkRawPost name name (mkDatetime 2024 1 n 9 30 0).

(** Five listing pages, newest first; the 18th, the 15th and the 10th of
    the month each run over a page break. *)
Definition sample_posts (pn : Z) : result (list RawPost) :=
  match pn with
  | 1 => Ok [sample_post "a" 20; sample_post "b" 18]
  | 2 => Ok [sample_post "c" 18; sample_post "d" 15]
  | 3 => Ok [sample_post "e" 15; sample_post "f" 10]
  | 4 => Ok [sample_post "g" 10; sample_post "h" 10]
  | 5 => Ok [sample_post "i" 9; sample_post "j" 2]
  | _ => Raise AttributeError
  end.

Definition sample_entries (pn : Z) : list RawPost :=
  match sample_posts pn with
  | Ok ps => ps
  | Raise _ => []
  end.

(** A listing that shows the same, well-formed entries at every load. *)
Definition steady (posts : Z -> result (list RawPost)) (t : nat) (pn : Z)
  : result (list (result RawPost)) :=
  match posts pn with
  | Ok ps => Ok (Ok <$> ps)
  | Raise e => Raise e
  end.

Definition sample_listing : nat -> Z -> result (list (result RawPost)) :=
  steady sample_posts.

Definition sample_newest (pn : Z) : date :=
  sample_day (match pn with 1 => 20 | 2 => 18 | 3 => 15 | 4 => 10 | _ => 9 end).

Definition sample_oldest (pn : Z) : date :=
  sample_day (match pn with 1 => 18 | 2 => 15 | 3 => 10 | 4 => 10 | _ => 2 end).

(** The pager of page 1: previous, 1, 2, 5, next. *)
Definition sample_paging : PagingDoc :=
  mkPagingDoc "https://guba.eastmoney.com/list,600000_1.html"
    (Ok [Raise ValueError; Ok 1; Ok 2; Ok 5; Raise ValueError]).

(** The news text of post "d" never shows; every other detail page loads. *)
Definition sample_detail (u : string) : DetailDoc :=
  if String.eqb u "https://guba.eastmoney.com/news,600000,d.html"
  then mkDetailDoc (Ok tt) (Ok tt) (Raise WaitTimeoutError)
         (Raise ElementNotFoundError) (Ok tt)
  else mkDetailDoc (Ok tt) (Ok tt) (Ok tt) (Ok ("text of " +:+ u)) (Ok tt).

(** The console: a line that holds the closing tag [[/b]], which closes
    nothing, raises [MarkupError]. *)
Definition sample_print (text : string) : result unit :=
  match String.index 0 "[/b]" text with
  | Some _ => Raise MarkupError
  | None => Ok tt
  end.

(** The last worker started is the first to finish. *)
Definition sample_finish (pn : Z) (k : nat) : nat := (3 - k)%nat.

(** The result iterator cancels what waits as soon as it has come to an
    exception. *)
Definition sample_reacts (pn : Z) (k : nat) : bool := true.

Definition sample_source : Source :=
  mkSource sample_paging sample_listing sample_print sample_detail
    sample_finish sample_reacts.

(** A stock code the forum does not know: page 1 redirects to the error
    page. *)
Definition missing_source : Source :=
  mkSource (mkPagingDoc error_url (Raise WaitTimeoutError))
    (fun _ _ => Raise AttributeError) sample_print sample_detail
    sample_finish sample_reacts.

(** A forum whose pager says there are no pages. *)
Definition empty_source : Source :=
  mkSource
    (mkPagingDoc "https://guba.eastmoney.com/list,600000_1.html"
       (Ok [Raise ValueError; Ok 0; Raise ValueError]))
    (fun _ _ => Ok []) sample_print sample_detail sample_finish
    sample_reacts.

(** A forum whose third page lists nothing. *)
Definition gap_source : Source :=
  mkSource sample_paging
    (fun t pn => if pn =? 3 then Ok [] else sample_listing t pn)
    sample_print sample_detail sample_finish sample_reacts.

(** A forum whose third page has no embedded list of articles. *)
Definition broken_source : Source :=
  mkSource sample_paging
    (fun t pn => if pn =? 3 then Raise AttributeError else sample_listing t pn)
    sample_print sample_detail sample_finish sample_reacts.

(** A post whose title closes a tag that is not open. *)
Definition rally_post : RawPost :=
  mkRawPost "[/b] rally" "r" (mkDatetime 2024 1 16 9 30 0).

(** The sample forum with that post on page 2, between "c" and "d". *)
Definition rally_source : Source :=
  mkSource sample_paging
    (fun t pn =>
       if pn =? 2
       then Ok [Ok (sample_post "c" 18); Ok rally_post; Ok (sample_post "d" 15)]
       else sample_listing t pn)
    sample_print sample_detail sample_finish sample_reacts.

(** [Fetcher("600000", date(2024, 1, n))] *)
Definition sample_fetcher (n : Z) : Fetcher :=
  Fetcher_init "600000" (sample_day n).

(** That fetcher once it holds the two articles of page 2, at references
    0 and 1. *)
Definition sample_page2 : Fetcher :=
  after_listing 2 [sample_post "c" 18; sample_post "d" 15] (sample_fetcher 10).


(** What the browser shows for three stock codes: the sample forum, a
    forum with a page that cannot be decoded, and, for every other code,
    the error page. *)
Definition sample_forum (c : string) : Source :=
  if String.eqb c "600000" then sample_source
  else if String.eqb c "300000" then broken_source
  else missing_source.

(** A cell of the date column of the workbook. *)
Definition sample_cell (n : Z) : datetime := mkDatetime 2024 1 n 0 0 0.

(** * Properties *)

(** ** The order on dates *)

Lemma date_ltb_spec (a b : date) :
  date_ltb a b = true <->
  year a < year b \/
  (year a = year b /\
   (month a < month b \/ (month a = month b /\ day a < day b))).
Proof.
  unfold date_ltb.
  rewrite !orb_true_iff, !andb_true_iff, !orb_true_iff, !andb_true_iff,
    !Z.ltb_lt, !Z.eqb_eq.
  tauto.
Qed.

Lemma date_lt_iff (a b : date) :
  date_lt a b <->
  year a < year b \/
  (year a = year b /\
   (month a < month b \/ (month a = month b /\ day a < day b))).
Proof. apply date_ltb_spec. Qed.

Lemma date_le_iff (a b : date) :
  date_le a b <->
  year a < year b \/
  (year a = year b /\
   (month a < month b \/ (month a = month b /\ day a <= day b))).
Proof.
  unfold date_le. rewrite <- not_true_iff_false, date_ltb_spec. lia.
Qed.

Ltac date_order :=
  rewrite ?date_lt_iff, ?date_le_iff in *; lia.

Lemma date_le_refl (a : date) : date_le a a.
Proof. date_order. Qed.

Lemma date_le_trans (a b c : date) : date_le a b -> date_le b c -> date_le a c.
Proof. intros H1 H2. date_order. Qed.

Lemma date_le_lt_trans (a b c : date) :
  date_le a b -> date_lt b c -> date_lt a c.
Proof. intros H1 H2. date_order. Qed.

Lemma date_lt_le_trans (a b c : date) :
  date_lt a b -> date_le b c -> date_lt a c.
Proof. intros H1 H2. date_order. Qed.

Lemma date_lt_not_le (a b : date) : date_lt a b <-> ~ date_le b a.
Proof.
  unfold date_lt, date_le. destruct (date_ltb a b); split; congruence.
Qed.

Lemma date_le_total (a b : date) : date_le a b \/ date_lt b a.
Proof. unfold date_le, date_lt. destruct (date_ltb b a); auto. Qed.

(** ** Indexing *)

Lemma py_index_nil {A} (i : Z) : py_index (@nil A) i = Raise IndexError.
Proof.
  unfold py_index. simpl.
  destruct (i <? 0) eqn:Hi; destruct (_ && _) eqn:Hb; try reflexivity;
    apply andb_true_iff in Hb as [H1 H2]; lia.
Qed.

Lemma py_index_first {A} (x : A) (xs : list A) : py_index (x :: xs) 0 = Ok x.
Proof.
  unfold py_index. cbn [length].
  replace (0 <? 0) with false by reflexivity. cbv beta zeta.
  replace ((0 <=? 0) && (0 <? Z.of_nat (S (length xs)))) with true
    by (symmetry; apply andb_true_iff; split;
        [apply Z.leb_le | apply Z.ltb_lt]; lia).
  reflexivity.
Qed.

Lemma py_index_last {A} (x : A) (xs : list A) :
  py_index (x :: xs) (-1) = Ok (default x (last (x :: xs))).
Proof.
  unfold py_index.
  replace (-1 <? 0) with true by reflexivity. cbv beta zeta.
  set (n := Z.of_nat (length (x :: xs))).
  assert (Hn : n = Z.of_nat (length xs) + 1) by (subst n; cbn [length]; lia).
  replace ((0 <=? n + -1) && (n + -1 <? n)) with true
    by (symmetry; apply andb_true_iff; split;
        [apply Z.leb_le | apply Z.ltb_lt]; lia).
  replace (Z.to_nat (n + -1)) with (Nat.pred (length (x :: xs)))
    by (cbn [length]; lia).
  rewrite <- last_lookup. destruct (last (x :: xs)) eqn:E; [reflexivity|].
  apply last_None in E. discriminate.
Qed.

Lemma py_index_Ok_elem {A} (xs : list A) (i : Z) (x : A) :
  py_index xs i = Ok x -> x ∈ xs.
Proof.
  unfold py_index. destruct (_ && _); [|discriminate].
  destruct (xs !! _) eqn:E; [|discriminate].
  intros [= <-]. eapply list_elem_of_lookup_2; eauto.
Qed.

Lemma elem_of_py_range (a b x : Z) : x ∈ py_range a b <-> a <= x < b.
Proof.
  unfold py_range. rewrite list_elem_of_fmap. split.
  - intros (k & -> & Hk). apply elem_of_seq in Hk. lia.
  - intros H. exists (Z.to_nat (x - a)). split; [lia|].
    apply elem_of_seq. lia.
Qed.

(** ** Running the monad *)

Ltac munfold :=
  unfold mbind, M_bind, bind, mret, M_ret, ret, lift, gets, emit, raise,
    stuck in *.

Lemma with_heap_id (s : Fetcher) : with_heap (heap s ++ []) s = s.
Proof. destruct s. unfold with_heap. cbn. by rewrite app_nil_r. Qed.


Lemma drain_entries (c : string) (entries : list (result RawPost))
    (s : Fetcher) :
  drain ((fun entry =>
            article ← lift entry;
            new_article (make_article c article)) <$> entries) s
  = Some (Ok (seq (length (heap s)) (length (decoded entries)),
              entries_failure entries),
          with_heap (heap s ++ (make_article c <$> decoded entries)) s).
Proof.
  revert s. induction entries as [|[p|e] entries IH]; intros s.
  - cbn. munfold. by rewrite with_heap_id.
  - cbn [fmap list_fmap drain decoded entries_failure length seq]. munfold.
    unfold new_article at 1. rewrite IH.
    cbn [heap]. rewrite length_app. cbn [length].
    replace (length (heap s) + 1)%nat with (S (length (heap s))) by lia.
    unfold with_heap. cbn. by rewrite <- app_assoc.
  - cbn. munfold. by rewrite with_heap_id.
Qed.

Section ListingFacts.

Variable src : Source.

Lemma get_article_list_eq (pn : Z) (s : Fetcher) :
  get_article_list src pn s
  = match src_listing src (loads_made s) pn with
    | Ok entries =>
        Some (Ok ((fun entry =>
                     article ← lift entry;
                     new_article (make_article (code s) article)) <$> entries),
              after_get pn s)
    | Raise e => Some (Raise e, after_get pn s)
    end.
Proof.
  unfold get_article_list. munfold.
  by destruct (src_listing src (loads_made s) pn).
Qed.

(** [list(self.get_article_list(pn))] *)
Lemma py_list_listing (pn : Z) (s : Fetcher) :
  py_list (get_article_list src pn) s
  = Some (match src_listing src (loads_made s) pn with
          | Ok entries =>
              match entries_failure entries with
              | Some e => Raise e
              | None =>
                  Ok (seq (length (heap s)) (length (decoded entries)))
              end
          | Raise e => Raise e
          end,
          after_probe src pn s).
Proof.
  unfold py_list, after_probe. munfold. rewrite get_article_list_eq.
  destruct (src_listing src (loads_made s) pn) as [entries|e]; [|reflexivity].
  change (code s) with (code (after_get pn s)).
  rewrite drain_entries.
  by destruct (entries_failure entries).
Qed.

Lemma get_date_range_eq (pn : Z) (s : Fetcher) :
  get_date_range (get_article_list src pn) s
  = Some (page_dates src (loads_made s) pn, after_probe src pn s).
Proof.
  unfold get_date_range. munfold. rewrite py_list_listing.
  unfold page_dates, after_probe.
  destruct (src_listing src (loads_made s) pn) as [entries|e]; [|reflexivity].
  destruct (entries_failure entries) as [e|]; [reflexivity|].
  destruct (decoded entries) as [|p ps]; [reflexivity|].
  cbn [length seq range_of]. rewrite py_index_first, py_index_last.
  set (n := length (heap s)).
  assert (Hh : heap (after_listing pn (p :: ps) s)
               = heap s ++ (make_article (code s) <$> p :: ps)) by reflexivity.
  unfold load. rewrite Hh.
  rewrite lookup_app_r by (subst n; lia).
  replace (n - length (heap s))%nat with 0%nat by (subst n; lia).
  cbn [fmap list_fmap lookup list_lookup]. rewrite Hh.
  assert (Hl : last (n :: seq (S n) (length ps)) = Some (n + length ps)%nat).
  { change (n :: seq (S n) (length ps)) with (seq n (S (length ps))).
    rewrite seq_S, last_snoc. reflexivity. }
  rewrite Hl. change (default n (Some (n + length ps)%nat))
    with (n + length ps)%nat.
  rewrite lookup_app_r by (subst n; lia).
  replace (n + length ps - length (heap s))%nat
    with (Nat.pred (length (make_article (code s) <$> p :: ps)))
    by (rewrite length_fmap; cbn [length]; subst n; lia).
  rewrite <- last_lookup, fmap_last.
  destruct (last (p :: ps)) as [q|] eqn:E; [reflexivity|].
  apply last_None in E. discriminate.
Qed.

End ListingFacts.
(** ** The search loop *)

Section SearchFacts.

Variable src : Source.

Lemma date_after_probe (pn : Z) (s : Fetcher) :
  date_ (after_probe src pn s) = date_ s.
Proof. unfold after_probe. by destruct (src_listing src _ pn). Qed.

Lemma total_page_after_probe (pn : Z) (s : Fetcher) :
  total_page (after_probe src pn s) = total_page s.
Proof. unfold after_probe. by destruct (src_listing src _ pn). Qed.

Lemma out_after_probe (pn : Z) (s : Fetcher) :
  out (after_probe src pn s) = out s.
Proof. unfold after_probe. by destruct (src_listing src _ pn). Qed.

Lemma code_after_probe (pn : Z) (s : Fetcher) :
  code (after_probe src pn s) = code s.
Proof. unfold after_probe. by destruct (src_listing src _ pn). Qed.

Lemma trace_after_probe (pn : Z) (s : Fetcher) :
  trace (after_probe src pn s) = trace s ++ [EvGet pn (get_url (code s) pn)].
Proof. unfold after_probe. by destruct (src_listing src _ pn). Qed.

Lemma loads_made_after_probe (pn : Z) (s : Fetcher) :
  loads_made (after_probe src pn s) = S (loads_made s).
Proof.
  unfold loads_made. rewrite trace_after_probe.
  unfold listing_gets. rewrite omap_app, length_app. cbn. lia.
Qed.

(** One pass loads page [mid] once and narrows the bounds by its dates. *)
Lemma loop_body_eq (start end_ : Z) (s : Fetcher) :
  loop_body src start end_ s
  = Some (match page_dates src (loads_made s) ((start + end_) / 2) with
          | Ok (earliest, latest) =>
              Ok (narrow start end_ (date_ s) earliest latest)
          | Raise e => Raise e
          end,
          after_probe src ((start + end_) / 2) s).
Proof.
  unfold loop_body. munfold. rewrite get_date_range_eq.
  destruct (page_dates src _ _) as [[earliest latest]|e]; [|reflexivity].
  rewrite date_after_probe. unfold narrow.
  destruct (date_gtb _ _); [reflexivity|].
  destruct (date_ltb _ _); reflexivity.
Qed.

Lemma narrow_cases (start end_ : Z) (d earliest latest : date) :
  narrow start end_ d earliest latest = (start, (start + end_) / 2 - 1)
  \/ narrow start end_ d earliest latest = ((start + end_) / 2 + 1, end_).
Proof.
  unfold narrow. destruct (date_gtb _ _); [by left|].
  destruct (date_ltb _ _); [by right | by left].
Qed.

Lemma mid_between (start end_ : Z) :
  start <= end_ -> start <= (start + end_) / 2 <= end_.
Proof.
  intros H. split; [apply Z.div_le_lower_bound | apply Z.div_le_upper_bound];
    lia.
Qed.

(** One pass keeps the bounds inside the old ones, leaves out the page it
    loaded, and at least halves the number of pages between them. *)
Lemma narrow_bounds (start end_ : Z) (d earliest latest : date) (a b : Z) :
  start <= end_ ->
  narrow start end_ d earliest latest = (a, b) ->
  start <= a /\ b <= end_ /\ a <= b + 1
  /\ ((start + end_) / 2 < a \/ b < (start + end_) / 2)
  /\ 2 * (b - a + 1) <= end_ - start + 1.
Proof.
  intros Hle Hn. pose proof (mid_between start end_ Hle) as Hm.
  assert (Hd : 2 * ((start + end_) / 2) <= start + end_
               < 2 * ((start + end_) / 2) + 2).
  { pose proof (Z.div_mod (start + end_) 2 ltac:(lia)).
    pose proof (Z.mod_pos_bound (start + end_) 2 ltac:(lia)). lia. }
  destruct (narrow_cases start end_ d earliest latest) as [E|E];
    rewrite E in Hn; injection Hn as <- <-; lia.
Qed.

(** The loop function is the iteration of [loop_body]. *)
Lemma search_loop_iterates (start end_ : Z) (s : Fetcher) :
  search_loop src start end_ s
  = if decide (start <= end_) then
      match loop_body src start end_ s with
      | Some (Ok (start', end'), s') => search_loop src start' end' s'
      | Some (Raise e, s') => Some (Raise e, s')
      | None => None
      end
    else Some (Ok (start, end_), s).
Proof.
  rewrite search_loop_equation_1.
  destruct (decide (start <= end_)) as [Hle|Hgt]; [|reflexivity].
  cbn. rewrite loop_body_eq, get_date_range_eq.
  destruct (page_dates src _ _) as [[earliest latest]|e]; [|reflexivity].
  cbn. rewrite date_after_probe. unfold narrow.
  destruct (date_gtb _ _); [reflexivity|].
  cbn. rewrite date_after_probe.
  destruct (date_ltb _ _); reflexivity.
Qed.

End SearchFacts.

Section SearchRuns.

Variable src : Source.

Lemma after_probes_cons (p : Z) (ps : list Z) (s : Fetcher) :
  after_probes src (p :: ps) s = after_probes src ps (after_probe src p s).
Proof. reflexivity. Qed.

Lemma date_after_probes (ps : list Z) (s : Fetcher) :
  date_ (after_probes src ps s) = date_ s.
Proof.
  revert s. induction ps as [|p ps IH]; intros s; [done|].
  by rewrite after_probes_cons, IH, date_after_probe.
Qed.

Lemma total_page_after_probes (ps : list Z) (s : Fetcher) :
  total_page (after_probes src ps s) = total_page s.
Proof.
  revert s. induction ps as [|p ps IH]; intros s; [done|].
  by rewrite after_probes_cons, IH, total_page_after_probe.
Qed.

Lemma out_after_probes (ps : list Z) (s : Fetcher) :
  out (after_probes src ps s) = out s.
Proof.
  revert s. induction ps as [|p ps IH]; intros s; [done|].
  by rewrite after_probes_cons, IH, out_after_probe.
Qed.

Lemma code_after_probes (ps : list Z) (s : Fetcher) :
  code (after_probes src ps s) = code s.
Proof.
  revert s. induction ps as [|p ps IH]; intros s; [done|].
  by rewrite after_probes_cons, IH, code_after_probe.
Qed.

Lemma trace_after_probes (ps : list Z) (s : Fetcher) :
  trace (after_probes src ps s)
  = trace s ++ ((fun p => EvGet p (get_url (code s) p)) <$> ps).
Proof.
  revert s. induction ps as [|p ps IH]; intros s.
  - cbn. by rewrite app_nil_r.
  - rewrite after_probes_cons, IH, trace_after_probe, code_after_probe,
      <- app_assoc.
    reflexivity.
Qed.

(** Every call of the loop function is a [search_run]: it returns, and the
    state it leaves is the one after the loads of the run. *)
Lemma search_loop_run (start end_ : Z) (s : Fetcher) :
  exists ps r,
    search_loop src start end_ s = Some (r, after_probes src ps s)
    /\ search_run src (date_ s) (loads_made s) start end_ ps r.
Proof.
  remember (Z.to_nat (end_ - start + 1)) as n eqn:Hn.
  revert start end_ s Hn.
  induction n as [n IH] using lt_wf_ind. intros start end_ s Hn.
  rewrite search_loop_iterates.
  destruct (decide (start <= end_)) as [Hle|Hgt].
  - rewrite loop_body_eq.
    destruct (page_dates src _ _) as [[earliest latest]|e] eqn:Hp.
    + destruct (narrow start end_ (date_ s) earliest latest) as [a b] eqn:Hab.
      pose proof (narrow_bounds _ _ _ _ _ _ _ Hle Hab) as (?&?&?&?&?).
      destruct (IH (Z.to_nat (b - a + 1)) ltac:(lia) a b
                  (after_probe src ((start + end_) / 2) s) eq_refl)
        as (ps & r & Hrun & Hps).
      exists ((start + end_) / 2 :: ps), r. split; [exact Hrun|].
      rewrite date_after_probe, loads_made_after_probe in Hps.
      eapply search_pass; [done | exact Hp |]. by rewrite Hab.
    + exists [(start + end_) / 2], (Raise e). split; [done|].
      by apply search_raise.
  - exists [], (Ok (start, end_)). split; [done|]. by apply search_exit.
Qed.

(** Where a run ends, which pages it loads and how many. *)
Lemma search_run_bounds (d : date) (t : nat) (start end_ : Z) (ps : list Z)
    (r : result (Z * Z)) :
  search_run src d t start end_ ps r ->
  start <= end_ + 1 ->
  (forall a b, r = Ok (a, b) -> start <= a <= end_ + 1 /\ b = a - 1)
  /\ (forall p, p ∈ ps -> start <= p <= end_)
  /\ NoDup ps
  /\ Z.of_nat (length ps) <= pass_bound (end_ - start + 1).
Proof.
  induction 1 as [t start end_ Hgt | t start end_ e Hle Hp
                 | t start end_ earliest latest ps r Hle Hp Hrun IH];
    intros Hinv.
  - split; [|split; [|split]].
    + intros a b [= <- <-]. lia.
    + intros p Hin. by apply elem_of_nil in Hin.
    + constructor.
    + unfold pass_bound. cbn [length].
      pose proof (Z.log2_nonneg (end_ - start + 1)).
      destruct (_ <=? _); lia.
  - pose proof (mid_between _ _ Hle). split; [|split; [|split]].
    + discriminate.
    + intros p Hin. apply list_elem_of_singleton in Hin as ->. lia.
    + apply NoDup_singleton.
    + unfold pass_bound. cbn [length].
      destruct (_ <=? _) eqn:E; [lia|].
      pose proof (Z.log2_nonneg (end_ - start + 1)). lia.
  - destruct (narrow start end_ d earliest latest) as [a b] eqn:Hab.
    cbn [fst snd] in *.
    pose proof (narrow_bounds _ _ _ _ _ _ _ Hle Hab) as (Ha&Hb&Hab1&Hmid&Hhalf).
    pose proof (mid_between _ _ Hle) as Hm.
    destruct (IH ltac:(lia)) as (IH1 & IH2 & IH3 & IH4).
    split; [|split; [|split]].
    + intros a' b' Hr. destruct (IH1 a' b' Hr). lia.
    + intros p [->|Hin]%elem_of_cons; [lia|]. specialize (IH2 p Hin). lia.
    + constructor; [|done]. intros Hin. specialize (IH2 _ Hin). lia.
    + cbn [length]. unfold pass_bound in *.
      destruct (end_ - start + 1 <=? 0) eqn:E1; [lia|].
      destruct (b - a + 1 <=? 0) eqn:E2.
      * pose proof (Z.log2_nonneg (end_ - start + 1)). lia.
      * assert (Z.log2 (2 * (b - a + 1)) <= Z.log2 (end_ - start + 1))
          by (apply Z.log2_le_mono; lia).
        rewrite Z.log2_double in H by lia. lia.
Qed.

End SearchRuns.

(** ** What the search finds on a reverse-chronological listing *)

Section Locate.

Variable src : Source.
Variable d : date.
Variable tp : Z.
Variables newest oldest : Z -> date.

Hypothesis pages_load :
  forall t i, 1 <= i <= tp -> page_dates src t i = Ok (newest i, oldest i).

Hypothesis pages_descend :
  forall i j, 1 <= i < j -> j <= tp ->
    date_le (newest j) (newest i) /\ date_le (oldest j) (oldest i).


Lemma goes_left_mono (i j : Z) :
  1 <= i <= j -> j <= tp ->
  goes_left newest oldest d i -> goes_left newest oldest d j.
Proof.
  intros Hij Hj Hi. destruct (decide (i = j)) as [->|Hne]; [done|].
  destruct (pages_descend i j ltac:(lia) ltac:(lia)) as [Hn Ho].
  destruct Hi as [Hi|Hi].
  - left. eapply date_le_lt_trans; eauto.
  - right. eapply date_le_trans; eauto.
Qed.

Lemma narrow_goes_left (start end_ : Z) (i : Z) :
  narrow start end_ d (newest i) (oldest i)
  = (start, (start + end_) / 2 - 1) /\ goes_left newest oldest d i
  \/ narrow start end_ d (newest i) (oldest i)
     = ((start + end_) / 2 + 1, end_) /\ ~ goes_left newest oldest d i.
Proof.
  unfold narrow, goes_left, date_gtb, date_lt, date_le.
  destruct (date_ltb (newest i) d); [left; auto|].
  destruct (date_ltb d (oldest i)); [right | left; auto].
  split; [done|]. intros [?|?]; discriminate.
Qed.

Lemma search_run_locates (t : nat) (start end_ : Z) (ps : list Z)
    (r : result (Z * Z)) :
  search_run src d t start end_ ps r ->
  1 <= start -> end_ <= tp -> start <= end_ + 1 ->
  (forall i, 1 <= i < start -> ~ goes_left newest oldest d i) ->
  (forall i, end_ < i <= tp -> goes_left newest oldest d i) ->
  exists p, r = Ok (p, p - 1) /\ 1 <= p <= tp + 1
    /\ (forall i, 1 <= i < p -> ~ goes_left newest oldest d i)
    /\ (forall i, p <= i <= tp -> goes_left newest oldest d i).
Proof.
  induction 1 as [t start end_ Hgt | t start end_ e Hle Hp
                 | t start end_ earliest latest ps r Hle Hp Hrun IH];
    intros H1 H2 H3 Hbefore Hafter.
  - exists start. replace end_ with (start - 1) by lia.
    repeat split; try lia; auto.
    intros i Hi. apply Hafter. lia.
  - pose proof (mid_between _ _ Hle).
    rewrite pages_load in Hp by lia. discriminate.
  - pose proof (mid_between _ _ Hle) as Hm.
    rewrite pages_load in Hp by lia. injection Hp as <- <-.
    set (mid := (start + end_) / 2) in *.
    destruct (narrow_goes_left start end_ mid) as [[E Hg]|[E Hg]];
      fold mid in E; rewrite E in IH; cbn [fst snd] in IH;
      apply IH; try lia.
    + done.
    + intros i Hi. apply (goes_left_mono mid i); [lia | lia | done].
    + intros i Hi Hgi. apply Hg.
      apply (goes_left_mono i mid); [lia | lia | done].
    + done.
Qed.

(** Where the two halves of the page range meet is the first page that
    contains [d], or the insertion boundary. *)
Lemma meeting_point (p : Z) :
  1 <= p <= tp + 1 ->
  (forall i, 1 <= i < p -> ~ goes_left newest oldest d i) ->
  (forall i, p <= i <= tp -> goes_left newest oldest d i) ->
  first_covering newest oldest d tp p \/ insertion_boundary newest oldest d tp p.
Proof.
  intros Hp Hbefore Hafter.
  assert (Hnewer : forall q, 1 <= q < p -> date_lt d (oldest q)).
  { intros q Hq. apply date_lt_not_le. intros Hle.
    apply (Hbefore q Hq). by right. }
  assert (Hnot : forall q, 1 <= q < p -> ~ covers newest oldest d q).
  { intros q Hq [Hc _]. specialize (Hnewer q Hq).
    apply date_lt_not_le in Hnewer. done. }
  destruct (decide (p <= tp)) as [Hin|Hout].
  - destruct (date_le_total d (newest p)) as [Hdn|Hnd].
    + left. repeat split; try lia; try done.
      destruct (Hafter p ltac:(lia)) as [Hl|Hl]; [|done].
      apply date_lt_not_le in Hl. done.
    + right. assert (Holder : forall q, p <= q <= tp -> date_lt (newest q) d).
      { intros q Hq. destruct (decide (p = q)) as [<-|Hne]; [done|].
        destruct (pages_descend p q ltac:(lia) ltac:(lia)) as [Hn _].
        eapply date_le_lt_trans; eauto. }
      repeat split; try lia; try done.
      intros q Hq Hc. destruct (decide (q < p)) as [Hlt|Hge].
      * apply (Hnot q ltac:(lia) Hc).
      * destruct Hc as [_ Hc]. specialize (Holder q ltac:(lia)).
        apply date_lt_not_le in Holder. done.
  - right. repeat split; try lia; try done;
      intros q Hq; try lia; apply Hnot; lia.
Qed.

End Locate.

(** ** Discovery of the page count *)

Section Discovery.

Variable src : Source.

Lemma get_total_page_eq (s : Fetcher) :
  get_total_page src s
  = if total_page s =? -1 then
      match discovered src with
      | Ok n => Some (Ok tt, with_total_page n (after_get 1 s))
      | Raise e => Some (Raise e, after_get 1 s)
      end
    else Some (Ok tt, s).
Proof.
  unfold get_total_page, discovered. munfold.
  destruct (total_page s =? -1); [|reflexivity].
  destruct (String.eqb _ _); [reflexivity|].
  destruct (pg_pagers _) as [pagers|e]; [|reflexivity].
  destruct (py_index pagers (-2)) as [[n|e]|e]; reflexivity.
Qed.

Lemma get_total_page_known (s : Fetcher) :
  total_page s <> -1 -> get_total_page src s = Some (Ok tt, s).
Proof.
  intros H. rewrite get_total_page_eq.
  destruct (total_page s =? -1) eqn:E; [|reflexivity].
  apply Z.eqb_eq in E. contradiction.
Qed.

Lemma call_times_known (s : Fetcher) (k : nat) :
  total_page s <> -1 ->
  call_times (get_total_page src) k s = Some (Ok tt, s).
Proof.
  intros H. induction k as [|k IH]; [reflexivity|].
  cbn [call_times]. munfold. by rewrite get_total_page_known.
Qed.

End Discovery.

(** ** The detail fetch *)

Lemma state_eta (s : Fetcher) :
  with_trace (trace s ++ []) (with_heap (heap s) s) = s.
Proof. destruct s. unfold with_trace, with_heap. cbn. by rewrite app_nil_r. Qed.

Section Detail.

Variable src : Source.

Lemma detail_line_set_content (text : string) (a : Article) :
  detail_line (set_content_of text a) = detail_line a.
Proof. reflexivity. Qed.

Lemma detail_opens_fetched (a : Article) :
  detail_opens src (fetched src a) = detail_opens src a.
Proof.
  unfold fetched. destruct (detail_opens src a) as [[]|e] eqn:E; [|done].
  destruct (detail_text src (url a)); [|done].
  unfold detail_opens in *. cbn [url]. by rewrite detail_line_set_content.
Qed.

Lemma url_fetched (a : Article) : url (fetched src a) = url a.
Proof.
  unfold fetched. destruct (detail_opens src a) as [[]|e]; [|done].
  by destruct (detail_text src (url a)).
Qed.

Lemma detail_return_fetched (l : loc) (a : Article) :
  detail_return src l (fetched src a) = detail_return src l a.
Proof.
  unfold detail_return. by rewrite detail_opens_fetched, url_fetched.
Qed.

Lemma fetched_idem (a : Article) : fetched src (fetched src a) = fetched src a.
Proof.
  unfold fetched at 1. rewrite detail_opens_fetched, url_fetched.
  unfold fetched.
  destruct (detail_opens src a) as [[]|e]; [|done].
  by destruct (detail_text src (url a)).
Qed.


Lemma detail_return_failure (l : loc) (a : Article) :
  detail_return src l a
  = match detail_failure src a with
    | Some e => Raise e
    | None => Ok l
    end.
Proof.
  unfold detail_return, detail_failure.
  destruct (detail_opens src a) as [[]|e]; [|done].
  by destruct (dd_close _) as [[]|e].
Qed.

Lemma detail_return_cases (l : loc) (a : Article) (r : loc) :
  detail_return src l a = Ok r -> r = l.
Proof.
  unfold detail_return. destruct (detail_opens src a) as [[]|e]; [|done].
  destruct (dd_close _) as [[]|e]; [|done]. by intros [= <-].
Qed.

(** The detail fetch of an existing article returns or raises
    [detail_return] and leaves [after_detail]. *)
Lemma get_article_detail_eq (l : loc) (a : Article) (s : Fetcher) :
  heap s !! l = Some a ->
  get_article_detail src l s
  = Some (detail_return src l a, after_detail src l a s).
Proof.
  intros Hl.
  assert (Hsame : after_detail src l a s
                  = with_trace (trace s ++ detail_trace src l a)
                      (with_heap (<[l := fetched src a]> (heap s)) s))
    by reflexivity.
  assert (Hid : <[l := a]> (heap s) = heap s) by by apply list_insert_id.
  unfold get_article_detail, try_except_finally. munfold.
  unfold load, set_content.
  rewrite Hsame. unfold detail_return, detail_trace, fetched, detail_opens,
    detail_text.
  cbn [heap]. rewrite Hl.
  destruct (src_print src (detail_line a)) as [[]|e0]; cbn.
  2:{ by rewrite Hid, state_eta. }
  destruct (dd_new_tab _) as [[]|e1]; cbn.
  2:{ by rewrite Hid, state_eta. }
  rewrite Hl. cbn.
  assert (Halter : forall text,
            alter (set_content_of text) l (heap s)
            = <[l := set_content_of text a]> (heap s)).
  { intros text. apply list_eq. intros i.
    destruct (decide (l = i)) as [<-|Hne].
    - rewrite list_lookup_alter_eq, Hl, list_lookup_insert_eq; [done|].
      eapply lookup_lt_Some; eauto.
    - by rewrite list_lookup_alter_ne, list_lookup_insert_ne. }
  destruct (dd_get _) as [[]|e2]; cbn;
    [destruct (dd_displayed _) as [[]|e3]; cbn;
       [destruct (dd_newstext _) as [text|e4]; cbn; [rewrite Hl; cbn|]|]|];
    destruct (dd_close _) as [[]|e5]; cbn;
    unfold with_trace, with_heap; cbn;
    rewrite <- ?app_assoc, ?Halter, ?Hid; reflexivity.
Qed.


(** The article of an entry after a detail fetch that got to its [try]
    block. *)
Lemma fetched_row (c : string) (p : RawPost) :
  detail_opens src (make_article c p) = Ok tt ->
  fetched src (make_article c p) = row_of src c p.
Proof.
  intros Ho. unfold fetched, row_of. rewrite Ho. cbn [url make_article].
  by destruct (detail_text src _).
Qed.

Lemma detail_failure_opens (a : Article) :
  detail_failure src a = None -> detail_opens src a = Ok tt.
Proof.
  unfold detail_failure. by destruct (detail_opens src a) as [[]|e].
Qed.

(** A detail fetch that returns or raises was given an existing article. *)
Lemma get_article_detail_inv (l : loc) (s : Fetcher) (r : result loc)
    (s' : Fetcher) :
  get_article_detail src l s = Some (r, s') ->
  exists a, heap s !! l = Some a /\ r = detail_return src l a
            /\ s' = after_detail src l a s.
Proof.
  destruct (heap s !! l) as [a|] eqn:Hl.
  - rewrite (get_article_detail_eq l a s Hl). intros [= <- <-]. eauto.
  - unfold get_article_detail. munfold. unfold load.
    cbn [heap]. rewrite Hl. discriminate.
Qed.

End Detail.
(** ** The worker pool *)

Lemma elem_of_middle {A} (x : A) (pre post : list A) : x ∈ pre ++ x :: post.
Proof. apply elem_of_app. right. apply elem_of_cons. by left. Qed.

Lemma elem_of_middle_weaken {A} (x y : A) (pre post : list A) :
  x ∈ pre ++ post -> x ∈ pre ++ y :: post.
Proof.
  intros [H|H]%elem_of_app; apply elem_of_app; [by left|].
  right. apply elem_of_cons. by right.
Qed.

Lemma elem_of_middle_other {A} (x y : A) (pre post : list A) :
  x ∈ pre ++ y :: post -> x <> y -> x ∈ pre ++ post.
Proof.
  intros [H|[H|H]%elem_of_cons]%elem_of_app Hne; apply elem_of_app;
    [by left | done | by right].
Qed.

Section Pool.

Variable src : Source.
Variable items : list loc.
Variable s0 : Fetcher.

Hypothesis items_exist : forall l, l ∈ items -> is_Some (heap s0 !! l).

Lemma tasks_lookup (i : nat) (l : loc) :
  (i, l) ∈ zip (seq 0 (length items)) items <-> items !! i = Some l.
Proof.
  split.
  - intros (k & x & y & [= -> ->] & Hx & Hy)%elem_of_lookup_zip_with.
    apply lookup_seq in Hx as [-> _]. done.
  - intros Hl. apply elem_of_lookup_zip_with. exists i, i, l.
    repeat split; [|done]. apply lookup_seq. split; [done|].
    eapply lookup_lt_Some; eauto.
Qed.


Lemma pool_init_inv : pool_inv src items s0 (pool_init items) s0.
Proof.
  assert (Hp : pending (pool_init items) = zip (seq 0 (length items)) items)
    by apply take_drop.
  constructor; rewrite ?Hp; try done.
  - rewrite fst_zip by (rewrite length_seq; lia). apply NoDup_seq.
  - intros i l Hin%tasks_lookup. split; [done|]. cbn.
    apply lookup_replicate_2. eapply lookup_lt_Some; eauto.
  - intros i l a Hl Ha. left. by apply tasks_lookup.
  - cbn. destruct (zip _ _); [done | discriminate].
  - cbn. rewrite length_take. unfold max_workers. lia.
  - cbn. apply length_replicate.
  - intros l a Hl. split; [by left | done].
Qed.

Lemma listing_gets_detail (t : list event) (l : loc) (a : Article) :
  listing_gets (t ++ detail_trace src l a) = listing_gets t.
Proof.
  unfold listing_gets, detail_trace. rewrite omap_app.
  destruct (detail_opens src a); [|by rewrite app_nil_r].
  destruct (detail_text src (url a)); destruct (dd_close _); cbn;
    by rewrite app_nil_r.
Qed.

Lemma seen_raise_spec (fs : list (option (result loc))) :
  seen_raise fs = true ->
  exists j e, fs !! j = Some (Some (Raise e))
    /\ forall i, (i < j)%nat -> exists l, fs !! i = Some (Some (Ok l)).
Proof.
  induction fs as [|[[l|e]|] fs IH]; cbn; try discriminate.
  - intros (j & e & Hj & Hbefore)%IH. exists (S j), e. split; [done|].
    intros [|i] Hi; [by exists l | apply Hbefore; lia].
  - intros _. exists 0%nat, e. split; [done|]. intros i Hi. lia.
Qed.

(** Cancelling tasks not yet started, once the result iterator has come
    to a future that holds an exception, keeps the invariant. *)
Lemma cancel_inv (p p' : pool) (s : Fetcher) :
  pool_inv src items s0 p s ->
  seen_raise (futures p) = true ->
  futures p' = futures p ->
  (forall x, x ∈ pending p' -> x ∈ pending p) ->
  NoDup (pending p').*1 ->
  (running p' = [] -> queue p' = []) ->
  (length (running p') <= max_workers)%nat ->
  pool_inv src items s0 p' s.
Proof.
  intros Hinv (j & e & Hj & Hbefore)%seen_raise_spec Hfs Hsub Hnd Hprog Hw.
  constructor; rewrite ?Hfs; try apply Hinv; try done.
  - intros i l Hin. apply (inv_task _ _ _ _ _ Hinv). by apply Hsub.
  - intros i l a Hl Ha.
    destruct (inv_future _ _ _ _ _ Hinv i l a Hl Ha) as [Hp|[Hd|Hc]];
      [|by right; left|by right; right].
    destruct (decide ((i, l) ∈ pending p')) as [Hin|Hout]; [by left|].
    right. right.
    assert (Hnone : futures p !! i = Some None)
      by by apply (inv_task _ _ _ _ _ Hinv i l).
    split; [done|]. exists j, e. split; [|done].
    destruct (decide (j < i)%nat) as [|Hge]; [done|].
    destruct (decide (i = j)) as [->|Hne]; [congruence|].
    destruct (Hbefore i ltac:(lia)) as [l' Hl']. congruence.
Qed.

(** A worker that has finished and takes the next task that waits, if
    there is one, keeps the invariant and leaves one task less. *)
Lemma worker_done_inv (p : pool) (s : Fetcher) (j i : nat) (l : loc) :
  pool_inv src items s0 p s ->
  running p !! j = Some (i, l) ->
  exists r s',
    get_article_detail src l s = Some (r, s')
    /\ pool_inv src items s0
         (mkPool (drop 1 (queue p)) (delete j (running p) ++ take 1 (queue p))
            (<[i := Some r]> (futures p))) s'
    /\ (forall x, x ∈ delete j (running p) ++ queue p -> x ∈ pending p)
    /\ NoDup (delete j (running p) ++ queue p).*1
    /\ S (length (delete j (running p) ++ queue p)) = length (pending p).
Proof.
  intros Hinv Hj.
  assert (Hjlt : (j < length (running p))%nat) by (eapply lookup_lt_Some; eauto).
  set (pre := take j (running p)).
  set (post := drop (S j) (running p) ++ queue p).
  assert (Hpend : pending p = pre ++ (i, l) :: post).
  { unfold pending, pre, post.
    rewrite <- (take_drop_middle (running p) j (i, l)) at 1 by done.
    by rewrite <- app_assoc. }
  assert (Hrest : delete j (running p) ++ queue p = pre ++ post).
  { rewrite delete_take_drop. unfold pre, post. by rewrite <- app_assoc. }
  assert (Hpend' : delete j (running p) ++ take 1 (queue p)
                   ++ drop 1 (queue p) = pre ++ post)
    by by rewrite take_drop.
  assert (Hitem : items !! i = Some l /\ futures p !! i = Some None).
  { apply (inv_task _ _ _ _ _ Hinv). rewrite Hpend. apply elem_of_middle. }
  destruct Hitem as [Hitem Hnone].
  assert (Hin : l ∈ items) by (eapply list_elem_of_lookup_2; eauto).
  destruct (items_exist l Hin) as [a Ha].
  assert (Hcur : exists cur, heap s !! l = Some cur
                             /\ fetched src cur = fetched src a
                             /\ detail_return src l cur = detail_return src l a).
  { destruct (inv_heap _ _ _ _ _ Hinv l a Ha) as [[H|H] _].
    - by exists a.
    - exists (fetched src a). split; [done|].
      split; [apply fetched_idem | apply detail_return_fetched]. }
  destruct Hcur as (cur & Hcur & Hf & Hr).
  exists (detail_return src l a), (after_detail src l cur s).
  split; [by rewrite (get_article_detail_eq src l cur s Hcur), Hr|].
  pose proof (inv_nodup _ _ _ _ _ Hinv) as Hnd.
  rewrite Hpend, fmap_app, fmap_cons in Hnd. cbn [fst] in Hnd.
  apply NoDup_app in Hnd as (Hnd1 & Hnd2 & Hnd3).
  apply NoDup_cons in Hnd3 as (Hnd3 & Hnd4).
  assert (Hlen : (i < length (futures p))%nat).
  { rewrite (inv_len _ _ _ _ _ Hinv). eapply lookup_lt_Some; eauto. }
  assert (Hllt : (l < length (heap s))%nat) by (eapply lookup_lt_Some; eauto).
  assert (Hnd' : NoDup (pre ++ post).*1).
  { rewrite fmap_app. apply NoDup_app. repeat split; [done | | done].
    intros x Hx Hx'. apply (Hnd2 x Hx). apply elem_of_cons. by right. }
  split; [|split; [|split]].
  2:{ intros x Hx. rewrite Hrest in Hx. rewrite Hpend.
      by apply elem_of_middle_weaken. }
  2:{ by rewrite Hrest. }
  2:{ rewrite Hrest, Hpend, !length_app. cbn. lia. }
  constructor; unfold pending; cbn [running queue futures];
    rewrite <- ?app_assoc, ?Hpend'.
  - exact Hnd'.
  - intros i' l' Hin'.
    destruct (inv_task _ _ _ _ _ Hinv i' l') as [Hi' Hn'].
    { rewrite Hpend. by apply elem_of_middle_weaken. }
    split; [done|]. rewrite list_lookup_insert_ne; [done|].
    intros <-. apply elem_of_app in Hin' as [Hin'|Hin'].
    + apply (Hnd2 i); [|apply list_elem_of_here].
      apply list_elem_of_fmap. by exists (i, l').
    + apply Hnd3. apply list_elem_of_fmap. by exists (i, l').
  - intros i' l' a' Hl' Ha'. cbn [after_detail with_trace with_heap heap].
    destruct (decide (i' = i)) as [->|Hne].
    + right. left. rewrite Hitem in Hl'. injection Hl' as <-.
      rewrite Ha in Ha'. injection Ha' as <-.
      rewrite list_lookup_insert_eq by done.
      split; [done|]. rewrite Hf. by apply list_lookup_insert_eq.
    + rewrite list_lookup_insert_ne by done.
      destruct (inv_future _ _ _ _ _ Hinv i' l' a' Hl' Ha')
        as [H|[[H1 H2]|(H1 & j' & e' & Hj' & He')]].
      * left. rewrite Hpend in H. apply (elem_of_middle_other _ _ _ _ H).
        congruence.
      * right. left. split; [done|].
        destruct (decide (l' = l)) as [->|Hnel].
        -- rewrite Ha in Ha'. injection Ha' as <-.
           rewrite Hf. by apply list_lookup_insert_eq.
        -- by rewrite list_lookup_insert_ne.
      * right. right. split; [done|]. exists j', e'. split; [done|].
        rewrite list_lookup_insert_ne; [done|]. congruence.
  - intros Hnil. apply app_eq_nil in Hnil as [_ Hq].
    destruct (queue p); [done | discriminate].
  - rewrite length_app, length_delete by (rewrite Hj; eauto).
    pose proof (inv_width _ _ _ _ _ Hinv).
    assert (length (take 1 (queue p)) <= 1)%nat by (rewrite length_take; lia).
    lia.
  - rewrite length_insert. apply (inv_len _ _ _ _ _ Hinv).
  - intros l' a' Hl'. cbn [after_detail with_trace with_heap heap].
    destruct (inv_heap _ _ _ _ _ Hinv l' a' Hl') as [Hany Hout].
    destruct (decide (l' = l)) as [->|Hne].
    + rewrite Ha in Hl'. injection Hl' as <-. split; [|done].
      right. rewrite Hf. by apply list_lookup_insert_eq.
    + by rewrite list_lookup_insert_ne.
  - cbn [after_detail with_trace with_heap heap]. rewrite length_insert.
    apply (inv_heap_len _ _ _ _ _ Hinv).
  - apply (inv_code _ _ _ _ _ Hinv).
  - apply (inv_date _ _ _ _ _ Hinv).
  - apply (inv_total _ _ _ _ _ Hinv).
  - apply (inv_out _ _ _ _ _ Hinv).
  - cbn [after_detail with_trace trace]. rewrite listing_gets_detail.
    apply (inv_gets _ _ _ _ _ Hinv).
Qed.

(** One step of the pool keeps the invariant and leaves fewer tasks,
    whether the tasks that wait are cancelled at it or not; they are
    cancelled only once the result iterator has come to an exception. *)
Lemma pool_finish_inv (cancel : list (option (result loc)) -> bool)
    (p : pool) (s : Fetcher) (j i : nat) (l : loc) :
  (forall fs, cancel fs = true -> seen_raise fs = true) ->
  pool_inv src items s0 p s ->
  running p !! j = Some (i, l) ->
  exists p' s',
    pool_finish (get_article_detail src) j cancel p s = Some (Ok p', s')
    /\ pool_inv src items s0 p' s'
    /\ (length (pending p') < length (pending p))%nat.
Proof.
  intros Hcancel Hinv Hj.
  destruct (worker_done_inv p s j i l Hinv Hj)
    as (r & s' & Hfn & Hinv' & Hsub & Hnd & Hlen).
  unfold pool_finish. rewrite Hj, Hfn. cbv zeta.
  eexists _, _. split; [reflexivity|].
  destruct (cancel (<[i := Some r]> (futures p))) eqn:Hc.
  - split.
    + eapply cancel_inv; [exact Hinv' | by apply Hcancel | done | | | done |].
      * intros x. unfold pending. cbn [running queue take drop].
        rewrite !app_nil_r. intros Hx. apply elem_of_app. left.
        apply elem_of_app. by left.
      * unfold pending. cbn [running queue take drop]. rewrite !app_nil_r.
        rewrite fmap_app in Hnd. by apply NoDup_app in Hnd as (Hnd & _ & _).
      * cbn [running take]. rewrite app_nil_r.
        pose proof (inv_width _ _ _ _ _ Hinv).
        pose proof (length_delete (running p) j ltac:(by rewrite Hj)). lia.
    + unfold pending at 1. cbn [running queue take drop].
      rewrite !app_nil_r. rewrite length_app in Hlen. lia.
  - split; [exact Hinv'|].
    unfold pending at 1. cbn [running queue].
    rewrite <- app_assoc, take_drop. lia.
Qed.

(** However the workers finish and whenever the result iterator reacts,
    after as many steps as there are tasks no task is left. *)
Lemma pool_run_inv (pick : nat -> nat) (reacts : nat -> bool) (n k : nat)
    (p : pool) (s : Fetcher) :
  pool_inv src items s0 p s ->
  (length (pending p) <= n)%nat ->
  exists p' s',
    pool_run (get_article_detail src) pick reacts n k p s = Some (Ok p', s')
    /\ pool_inv src items s0 p' s'
    /\ pending p' = [].
Proof.
  revert k p s. induction n as [|n IH]; intros k p s Hinv Hlen.
  - exists p, s. split; [done|]. split; [done|].
    apply nil_length_inv. lia.
  - cbn [pool_run]. munfold.
    destruct (running p !! (pick k `mod` length (running p))%nat)
      as [[i l]|] eqn:Hj.
    + destruct (pool_finish_inv (fun fs => seen_raise fs && reacts k)
                  p s (pick k `mod` length (running p))%nat i l)
        as (p2 & s2 & Hfin & Hinv2 & Hlen2);
        [by intros fs [H _]%andb_true_iff | done | done |].
      rewrite Hfin. apply IH; [done | lia].
    + unfold pool_finish. rewrite Hj. apply lookup_ge_None in Hj.
      assert (Hrun : running p = []).
      { destruct (running p) as [|t ts]; [done|]. exfalso.
        pose proof (Nat.mod_upper_bound (pick k) (length (t :: ts))
                      ltac:(done)). lia. }
      apply IH; [done|]. unfold pending.
      rewrite Hrun, (inv_progress _ _ _ _ _ Hinv Hrun). cbn. lia.
Qed.

End Pool.

Lemma with_out_id (s : Fetcher) : with_out (out s ++ []) s = s.
Proof. destruct s. unfold with_out. cbn. by rewrite app_nil_r. Qed.

(** The result iterator yields the results before the first future that
    holds an exception, and raises that exception. *)
Lemma yield_results_prefix (fs : list (option (result loc))) (s : Fetcher) :
  (forall i, fs !! i = Some None ->
     exists j e, (j < i)%nat /\ fs !! j = Some (Some (Raise e))) ->
  exists ys r,
    yield_results fs s = Some (r, with_out (out s ++ ys) s)
    /\ (forall i y, ys !! i = Some y -> fs !! i = Some (Some (Ok y)))
    /\ ((length ys = length fs /\ r = Ok tt)
        \/ exists e, fs !! length ys = Some (Some (Raise e)) /\ r = Raise e).
Proof.
  revert s. induction fs as [|[[l|e]|] fs IH]; intros s Hnone.
  - exists [], (Ok tt). cbn. munfold. rewrite with_out_id.
    split; [done|]. split; [|by left]. intros i y Hi. done.
  - destruct (IH (with_out (out s ++ [l]) s)) as (ys & r & Hy & Hys & Hend).
    { intros i Hi. destruct (Hnone (S i) Hi) as (j & e & Hj & He).
      destruct j as [|j]; [discriminate|]. exists j, e. split; [lia | done]. }
    exists (l :: ys), r. split; [|split].
    + cbn [yield_results]. munfold. unfold yield at 1.
      change (mkFetcher (code s) (date_ s) (total_page s) (heap s)
                (out s ++ [l]) (trace s)) with (with_out (out s ++ [l]) s).
      rewrite Hy. unfold with_out. cbn. by rewrite <- app_assoc.
    + intros [|i] y Hi; [by injection Hi as <- | by apply Hys].
    + destruct Hend as [[Hlen ->]|(e & He & ->)].
      * left. cbn [length]. by rewrite Hlen.
      * right. by exists e.
  - exists [], (Raise e). cbn. munfold. rewrite with_out_id.
    split; [done|]. split; [|right; by exists e]. intros i y Hi. done.
  - destruct (Hnone 0%nat eq_refl) as (j & e & Hj & _). lia.
Qed.

Section PoolRun.

Variable src : Source.
Variable items : list loc.
Variable s0 : Fetcher.

Hypothesis items_exist : forall l, l ∈ items -> is_Some (heap s0 !! l).

(** The pool over [items] and the results it yields: whatever the order
    in which the workers finish and whenever the result iterator reacts,
    the items before the first one whose detail fetch raises are yielded,
    in the order of [items], each after its detail fetch, and the
    exception of that one is raised. *)
Lemma pool_yields (pick : nat -> nat) (reacts : nat -> bool) :
  exists p s1 k r,
    pool_run (get_article_detail src) pick reacts (length items) 0
      (pool_init items) s0 = Some (Ok p, s1)
    /\ yield_results (futures p) s1
       = Some (r, with_out (out s0 ++ take k items) s1)
    /\ pool_inv src items s0 p s1
    /\ pending p = []
    /\ (k <= length items)%nat
    /\ (forall i l a, (i < k)%nat -> items !! i = Some l ->
          heap s0 !! l = Some a ->
          detail_return src l a = Ok l
          /\ heap s1 !! l = Some (fetched src a))
    /\ ((k = length items /\ r = Ok tt)
        \/ exists l a e,
             items !! k = Some l /\ heap s0 !! l = Some a
             /\ detail_return src l a = Raise e /\ r = Raise e).
Proof.
  destruct (pool_run_inv src items s0 items_exist pick reacts (length items) 0
              (pool_init items) s0 (pool_init_inv src items s0))
    as (p & s1 & Hrun & Hinv & Hnil).
  { unfold pending, pool_init. cbn [running queue].
    rewrite take_drop, length_zip_with, length_seq. lia. }
  assert (Hitem : forall i l, items !! i = Some l ->
            exists a, heap s0 !! l = Some a
              /\ ((futures p !! i = Some (Some (detail_return src l a))
                   /\ heap s1 !! l = Some (fetched src a))
                  \/ (futures p !! i = Some None
                      /\ exists j e, (j < i)%nat
                           /\ futures p !! j = Some (Some (Raise e))))).
  { intros i l Hi.
    destruct (items_exist l ltac:(eapply list_elem_of_lookup_2; eauto))
      as [a Ha].
    exists a. split; [done|].
    destruct (inv_future _ _ _ _ _ Hinv i l a Hi Ha) as [H|[H|H]];
      [|by left|by right].
    rewrite Hnil in H. by apply elem_of_nil in H. }
  assert (Hfut : forall i, (i < length (futures p))%nat ->
            exists l, items !! i = Some l).
  { intros i Hi. rewrite (inv_len _ _ _ _ _ Hinv) in Hi.
    by apply lookup_lt_is_Some_2. }
  destruct (yield_results_prefix (futures p) s1)
    as (ys & r & Hy & Hys & Hend).
  { intros i Hi. destruct (Hfut i) as [l Hl]; [by eapply lookup_lt_Some|].
    destruct (Hitem i l Hl) as (a & _ & [[H _]|[_ H]]); [congruence | done]. }
  assert (Hprefix : forall i y, ys !! i = Some y ->
            items !! i = Some y
            /\ forall a, heap s0 !! y = Some a ->
                 detail_return src y a = Ok y
                 /\ heap s1 !! y = Some (fetched src a)).
  { intros i y Hi. specialize (Hys i y Hi).
    destruct (Hfut i) as [l Hl]; [by eapply lookup_lt_Some|].
    destruct (Hitem i l Hl) as (a & Ha & [[H1 H2]|[H1 _]]); [|congruence].
    rewrite Hys in H1. injection H1 as H1. symmetry in H1.
    pose proof (detail_return_cases src l a y H1) as ->.
    split; [done|]. intros a' Ha'. rewrite Ha in Ha'. by injection Ha' as <-. }
  assert (Hk : (length ys <= length items)%nat).
  { destruct (decide (length ys <= length items)%nat) as [|Hgt]; [done|].
    destruct (lookup_lt_is_Some_2 ys (length items) ltac:(lia)) as [y Hyl].
    destruct (Hprefix _ _ Hyl) as [Hi _].
    apply lookup_lt_Some in Hi. lia. }
  assert (Htake : ys = take (length ys) items).
  { apply list_eq. intros i.
    destruct (ys !! i) as [y|] eqn:Hi.
    - destruct (Hprefix _ _ Hi) as [Hit _].
      rewrite lookup_take_lt; [done|]. by eapply lookup_lt_Some.
    - symmetry. apply lookup_take_ge. by apply lookup_ge_None. }
  exists p, s1, (length ys), r. split; [exact Hrun|].
  split; [by rewrite <- Htake, <- (inv_out _ _ _ _ _ Hinv)|].
  split; [exact Hinv|]. split; [exact Hnil|]. split; [exact Hk|]. split.
  - intros i l a Hi Hl Ha.
    destruct (lookup_lt_is_Some_2 ys i Hi) as [y Hyi].
    destruct (Hprefix _ _ Hyi) as [Hit Hret].
    rewrite Hl in Hit. injection Hit as <-. by apply Hret.
  - destruct Hend as [[Hlen ->]|(e & He & ->)].
    + left. split; [|done]. rewrite Hlen. apply (inv_len _ _ _ _ _ Hinv).
    + right. destruct (Hfut (length ys)) as [l Hl];
        [by eapply lookup_lt_Some|].
      destruct (Hitem _ l Hl) as (a & Ha & [[H1 _]|[H1 _]]); [|congruence].
      exists l, a, e. rewrite He in H1. injection H1 as H1.
      by repeat split.
Qed.

End PoolRun.
(** ** One page of the window, and the whole run *)

Lemma decoded_Ok (posts : list RawPost) : decoded (Ok <$> posts) = posts.
Proof. induction posts as [|p posts IH]; [done|]. cbn. by rewrite IH. Qed.

Lemma entries_failure_Ok (posts : list RawPost) :
  entries_failure (Ok <$> posts) = None.
Proof. by induction posts. Qed.

Lemma entries_failure_None (entries : list (result RawPost)) :
  entries_failure entries = None -> entries = Ok <$> decoded entries.
Proof.
  induction entries as [|[p|e] entries IH]; cbn; [done | | done].
  intros H. by rewrite <- IH.
Qed.

Section Run.

Variable src : Source.

Lemma search_run_det (d : date) (t : nat) (start end_ : Z) (ps ps' : list Z)
    (r r' : result (Z * Z)) :
  search_run src d t start end_ ps r ->
  search_run src d t start end_ ps' r' ->
  ps = ps' /\ r = r'.
Proof.
  intros H. revert ps' r'.
  induction H as [t start end_ Hgt | t start end_ e Hle Hp
                 | t start end_ earliest latest ps r Hle Hp Hrun IH];
    intros ps' r' H'.
  - inversion H'; subst; [done | contradiction | contradiction].
  - inversion H'; subst; [contradiction | split; congruence | congruence].
  - inversion H' as [| | ? ? ? earliest' latest' ps'' ? ? Hp' Hrun'];
      subst; [contradiction | congruence |].
    rewrite Hp in Hp'. injection Hp' as <- <-.
    by destruct (IH _ _ Hrun') as [-> ->].
Qed.

(** A page the search loads and cannot date ends the search. *)
Lemma search_run_raises (d : date) (t : nat) (start end_ : Z) (ps : list Z)
    (r : result (Z * Z)) (k : nat) (pn : Z) (e : exn) :
  search_run src d t start end_ ps r ->
  ps !! k = Some pn -> page_dates src (t + k) pn = Raise e -> r = Raise e.
Proof.
  intros H. revert k.
  induction H as [t start end_ Hgt | t start end_ e' Hle Hp
                 | t start end_ earliest latest ps r Hle Hp Hrun IH];
    intros k Hk Hpn.
  - discriminate.
  - destruct k as [|k]; [|discriminate]. injection Hk as <-.
    rewrite Nat.add_0_r in Hpn. congruence.
  - destruct k as [|k].
    + injection Hk as <-. rewrite Nat.add_0_r in Hpn. congruence.
    + apply (IH k Hk). by replace (S t + k)%nat with (t + S k)%nat by lia.
Qed.

Lemma detail_events_gets (t : list event) (ps : list Z) (c : string) :
  detail_events (t ++ ((fun p => EvGet p (get_url c p)) <$> ps))
  = detail_events t.
Proof.
  unfold detail_events. rewrite List.filter_app.
  induction ps as [|p ps IH]; cbn; [by rewrite app_nil_r | done].
Qed.

(** One page of the window: the page is loaded, the entries that decode
    become articles, and the pool serves them. *)
Lemma fetch_page_eq (page : Z) (s : Fetcher) :
  fetch_page src page s
  = match src_listing src (loads_made s) page with
    | Ok entries =>
        let items := seq (length (heap s)) (length (decoded entries)) in
        let s0 := after_listing page (decoded entries) s in
        match entries_failure entries with
        | Some e =>
            match pool_run (get_article_detail src) (src_finish src page)
                    (fun _ => false) (length items) 0 (pool_init items) s0 with
            | Some (Ok _, s1) => Some (Raise e, s1)
            | Some (Raise e', s1) => Some (Raise e', s1)
            | None => None
            end
        | None =>
            match pool_run (get_article_detail src) (src_finish src page)
                    (src_reacts src page) (length items) 0 (pool_init items)
                    s0 with
            | Some (Ok p, s1) => yield_results (futures p) s1
            | Some (Raise e', s1) => Some (Raise e', s1)
            | None => None
            end
        end
    | Raise e => Some (Raise e, after_get page s)
    end.
Proof.
  unfold fetch_page, executor_map. munfold. rewrite get_article_list_eq.
  destruct (src_listing src (loads_made s) page) as [entries|e]; [|reflexivity].
  change (code s) with (code (after_get page s)).
  rewrite drain_entries.
  by destruct (entries_failure entries).
Qed.

(** The articles of a page exist once the page is listed. *)
Lemma listed_exist (page : Z) (posts : list RawPost) (s : Fetcher) (l : loc) :
  l ∈ seq (length (heap s)) (length posts) ->
  is_Some (heap (after_listing page posts s) !! l).
Proof.
  intros Hin%elem_of_seq. apply lookup_lt_is_Some.
  change (heap (after_listing page posts s))
    with (heap s ++ (make_article (code s) <$> posts)).
  rewrite length_app, length_fmap. lia.
Qed.

Lemma listed_lookup (page : Z) (posts : list RawPost) (s : Fetcher) (i : nat)
    (p : RawPost) :
  posts !! i = Some p ->
  heap (after_listing page posts s) !! (length (heap s) + i)%nat
  = Some (make_article (code s) p).
Proof.
  intros Hp.
  change (heap (after_listing page posts s))
    with (heap s ++ (make_article (code s) <$> posts)).
  rewrite lookup_app_r by lia.
  replace (length (heap s) + i - length (heap s))%nat with i by lia.
  by rewrite list_lookup_fmap, Hp.
Qed.

Lemma listed_before (page : Z) (posts : list RawPost) (s : Fetcher) (l : loc)
    (a : Article) :
  heap s !! l = Some a ->
  heap (after_listing page posts s) !! l = Some a
  /\ l ∉ seq (length (heap s)) (length posts).
Proof.
  intros Hl. pose proof (lookup_lt_Some _ _ _ Hl) as Hlt. split.
  - change (heap (after_listing page posts s))
      with (heap s ++ (make_article (code s) <$> posts)).
    by apply lookup_app_l_Some.
  - intros Hin%elem_of_seq. lia.
Qed.

Lemma loads_made_after_get (pn : Z) (s : Fetcher) :
  listing_gets (trace (after_get pn s)) = listing_gets (trace s) ++ [pn].
Proof. unfold after_get, with_trace, listing_gets. cbn. by rewrite omap_app. Qed.

(** One page of the window, whatever it shows and however the pool is
    scheduled: the call returns or raises; it yields the first [k]
    articles of the page, in the order of the listing, each after a detail
    fetch that did not raise; and it ends normally when that is every
    entry of the page, with the exception of the listing when the page or
    one of its entries fails to decode (then [k = 0]), and otherwise with
    the exception of the detail fetch of entry [k]. *)
Lemma fetch_page_cases (page : Z) (s : Fetcher) :
  exists k r s',
    fetch_page src page s = Some (r, s')
    /\ out s' = out s ++ seq (length (heap s)) k
    /\ code s' = code s /\ date_ s' = date_ s /\ total_page s' = total_page s
    /\ listing_gets (trace s') = listing_gets (trace s) ++ [page]
    /\ (forall l a, heap s !! l = Some a -> heap s' !! l = Some a)
    /\ match src_listing src (loads_made s) page with
       | Raise e => k = 0%nat /\ r = Raise e /\ heap s' = heap s
       | Ok entries =>
           (k <= length (decoded entries))%nat
           /\ length (heap s') = (length (heap s) + length (decoded entries))%nat
           /\ (forall i p, decoded entries !! i = Some p ->
                 heap s' !! (length (heap s) + i)%nat
                 = Some (make_article (code s) p)
                 \/ heap s' !! (length (heap s) + i)%nat
                    = Some (fetched src (make_article (code s) p)))
           /\ (forall i p, (i < k)%nat -> decoded entries !! i = Some p ->
                 detail_failure src (make_article (code s) p) = None
                 /\ heap s' !! (length (heap s) + i)%nat
                    = Some (fetched src (make_article (code s) p)))
           /\ match entries_failure entries with
              | Some e => k = 0%nat /\ r = Raise e
              | None =>
                  (k = length entries /\ r = Ok tt)
                  \/ exists p e,
                       decoded entries !! k = Some p
                       /\ detail_failure src (make_article (code s) p) = Some e
                       /\ r = Raise e
              end
       end.
Proof.
  rewrite fetch_page_eq.
  destruct (src_listing src (loads_made s) page) as [entries|e].
  2:{ exists 0%nat, (Raise e), (after_get page s).
      split; [done|]. cbn [seq]. rewrite app_nil_r.
      do 4 (split; [done|]). split; [apply loads_made_after_get|].
      split; [done|]. done. }
  cbv zeta.
  set (posts := decoded entries).
  set (items := seq (length (heap s)) (length posts)).
  set (s0 := after_listing page posts s).
  assert (Hexist : forall l, l ∈ items -> is_Some (heap s0 !! l))
    by (intros l; apply listed_exist).
  assert (Hitem : forall i p, posts !! i = Some p ->
            items !! i = Some (length (heap s) + i)%nat
            /\ heap s0 !! (length (heap s) + i)%nat
               = Some (make_article (code s) p)).
  { intros i p Hp. split; [|by apply listed_lookup].
    apply lookup_seq. split; [done|]. by eapply lookup_lt_Some. }
  assert (Hold : forall p1 s1, pool_inv src items s0 p1 s1 ->
            forall l a, heap s !! l = Some a -> heap s1 !! l = Some a).
  { intros p1 s1 Hinv l a Hl.
    destruct (listed_before page posts s l a Hl) as [H0 Hnot].
    by apply (inv_heap _ _ _ _ _ Hinv l a H0). }
  assert (Hany : forall p1 s1, pool_inv src items s0 p1 s1 ->
            forall i p, posts !! i = Some p ->
              heap s1 !! (length (heap s) + i)%nat
              = Some (make_article (code s) p)
              \/ heap s1 !! (length (heap s) + i)%nat
                 = Some (fetched src (make_article (code s) p))).
  { intros p1 s1 Hinv i p Hp. destruct (Hitem i p Hp) as [_ H0].
    by apply (inv_heap _ _ _ _ _ Hinv _ _ H0). }
  assert (Hlen : forall p1 s1, pool_inv src items s0 p1 s1 ->
            length (heap s1) = (length (heap s) + length posts)%nat).
  { intros p1 s1 Hinv. rewrite (inv_heap_len _ _ _ _ _ Hinv).
    unfold s0. change (heap (after_listing page posts s))
      with (heap s ++ (make_article (code s) <$> posts)).
    by rewrite length_app, length_fmap. }
  assert (Hgets : forall p1 s1, pool_inv src items s0 p1 s1 ->
            listing_gets (trace s1) = listing_gets (trace s) ++ [page]).
  { intros p1 s1 Hinv. rewrite (inv_gets _ _ _ _ _ Hinv).
    apply loads_made_after_get. }
  destruct (entries_failure entries) as [e|] eqn:Hfail.
  - destruct (pool_run_inv src items s0 Hexist (src_finish src page)
                (fun _ => false) (length items) 0 (pool_init items) s0
                (pool_init_inv src items s0))
      as (p1 & s1 & Hrun & Hinv & _).
    { unfold pending, pool_init. cbn [running queue].
      rewrite take_drop, length_zip_with, length_seq. lia. }
    rewrite Hrun. exists 0%nat, (Raise e), s1. split; [done|].
    cbn [seq]. rewrite app_nil_r.
    split; [apply (inv_out _ _ _ _ _ Hinv)|].
    split; [apply (inv_code _ _ _ _ _ Hinv)|].
    split; [apply (inv_date _ _ _ _ _ Hinv)|].
    split; [apply (inv_total _ _ _ _ _ Hinv)|].
    split; [by eapply Hgets|]. split; [by eapply Hold|].
    split; [lia|]. split; [by eapply Hlen|]. split; [by eapply Hany|].
    split; [|done]. intros i p Hi. lia.
  - destruct (pool_yields src items s0 Hexist (src_finish src page)
                (src_reacts src page))
      as (p1 & s1 & k & r & Hrun & Hy & Hinv & _ & Hk & Hdone & Hend).
    rewrite Hrun, Hy.
    assert (Hlenitems : length items = length posts) by apply length_seq.
    exists k, r, (with_out (out s0 ++ take k items) s1). split; [done|].
    cbn [with_out out code date_ total_page trace heap].
    split.
    { unfold items. rewrite take_seq. f_equal. f_equal. lia. }
    split; [apply (inv_code _ _ _ _ _ Hinv)|].
    split; [apply (inv_date _ _ _ _ _ Hinv)|].
    split; [apply (inv_total _ _ _ _ _ Hinv)|].
    split; [by eapply Hgets|]. split; [by eapply Hold|].
    split; [lia|]. split; [by eapply Hlen|]. split; [by eapply Hany|].
    split.
    + intros i p Hi Hp. destruct (Hitem i p Hp) as [Hl Ha].
      destruct (Hdone i _ _ Hi Hl Ha) as [Hret Hheap].
      split; [|done]. rewrite detail_return_failure in Hret.
      by destruct (detail_failure src (make_article (code s) p)).
    + destruct Hend as [[-> ->]|(l & a & e & Hl & Ha & Hret & ->)].
      * left. split; [|done]. rewrite Hlenitems. unfold posts.
        rewrite (entries_failure_None entries Hfail) at 2.
        by rewrite length_fmap.
      * right.
        assert (Hkl : (k < length posts)%nat)
          by (rewrite <- Hlenitems; by eapply lookup_lt_Some).
        destruct (lookup_lt_is_Some_2 posts k Hkl) as [p Hp].
        destruct (Hitem k p Hp) as [Hl' Ha'].
        rewrite Hl in Hl'. injection Hl' as ->.
        rewrite Ha in Ha'. injection Ha' as ->.
        exists p, e. split; [done|]. split; [|done].
        rewrite detail_return_failure in Hret.
        by destruct (detail_failure src (make_article (code s) p)) as [e'|];
          [injection Hret as -> | discriminate].
Qed.

(** The run, stage by stage. *)
Lemma get_articles_with_date_eq (s : Fetcher) :
  get_articles_with_date src s
  = match get_total_page src s with
    | Some (Ok _, s1) =>
        match search_loop src 1 (total_page s1) s1 with
        | Some (Ok (start, end_), s2) =>
            for_each
              (py_range (start_page_of start)
                 (end_page_of end_ (total_page s2) + 1))
              (fetch_page src) s2
        | Some (Raise e, s2) => Some (Raise e, s2)
        | None => None
        end
    | Some (Raise e, s1) => Some (Raise e, s1)
    | None => None
    end.
Proof.
  unfold get_articles_with_date. munfold.
  destruct (get_total_page src s) as [[[[]|e] s1]|]; try reflexivity.
  destruct (search_loop src 1 (total_page s1) s1)
    as [[[[start end_]|e] s2]|]; reflexivity.
Qed.

(** The window the run fetches after a search that ended at [p]. *)
Lemma window_after_search (d : date) (t : nat) (tp : Z) (ps : list Z)
    (p e : Z) :
  0 <= tp ->
  search_run src d t 1 tp ps (Ok (p, e)) ->
  start_page_of p = Z.max 1 (p - 1) /\ end_page_of e tp = Z.min tp p.
Proof.
  intros Htp Hrun.
  destruct (search_run_bounds src d t 1 tp ps _ Hrun ltac:(lia))
    as (Hb & _).
  destruct (Hb p e eq_refl) as [Hp ->].
  unfold start_page_of, end_page_of. split.
  - destruct (p - 1 >? 0) eqn:E; lia.
  - destruct (p - 1 + 1 <=? tp) eqn:E; lia.
Qed.

(** The loop over the pages of the window returns or raises. *)
Lemma for_each_returns (pages : list Z) (s : Fetcher) :
  exists r s', for_each pages (fetch_page src) s = Some (r, s').
Proof.
  revert s. induction pages as [|page pages IH]; intros s; [by eexists _, _|].
  cbn [for_each]. munfold.
  destruct (fetch_page_cases page s) as (k & r & s1 & -> & _).
  destruct r as [[]|e]; [apply IH | by eexists _, _].
Qed.

(** [get_articles_with_date] returns or raises, whatever the forum shows. *)
Lemma run_returns (s : Fetcher) :
  exists r s', get_articles_with_date src s = Some (r, s').
Proof.
  rewrite get_articles_with_date_eq, get_total_page_eq.
  assert (Hsearch : forall s1,
            exists r s',
              match search_loop src 1 (total_page s1) s1 with
              | Some (Ok (start, end_), s2) =>
                  for_each
                    (py_range (start_page_of start)
                       (end_page_of end_ (total_page s2) + 1))
                    (fetch_page src) s2
              | Some (Raise e, s2) => Some (Raise e, s2)
              | None => None
              end = Some (r, s')).
  { intros s1.
    destruct (search_loop_run src 1 (total_page s1) s1)
      as (ps & r & -> & _).
    destruct r as [[start end_]|e]; [apply for_each_returns|by eexists _, _]. }
  destruct (total_page s =? -1); [|apply Hsearch].
  destruct (discovered src) as [n|e]; [apply Hsearch | by eexists _, _].
Qed.

End Run.
(** * The search *)

(** C5. From [start = 1] and [end = total_page >= 1] the search loop
    returns; the listing pages it loads are pairwise distinct and at most
    [log2 total_page + 1] in number; and every pass through its body
    leaves bounds that lie within the old ones and are strictly closer
    together. *)
Theorem search_loads_logarithmic (src : Source) (s : Fetcher) (tp : Z) :
  1 <= tp ->
  exists ps r,
    search_loop src 1 tp s = Some (r, after_probes src ps s)
    /\ trace (after_probes src ps s)
       = trace s ++ ((fun p => EvGet p (get_url (code s) p)) <$> ps)
    /\ NoDup ps
    /\ Z.of_nat (length ps) <= Z.log2 tp + 1
    /\ (forall start end_ s1 start' end' s2,
          loop_step src (start, end_, s1) (start', end', s2) ->
          start <= start' /\ end' <= end_ /\ end' - start' < end_ - start).
Proof.
  intros Htp.
  destruct (search_loop_run src 1 tp s) as (ps & r & Hloop & Hrun).
  destruct (search_run_bounds src _ _ _ _ _ _ Hrun ltac:(lia))
    as (_ & _ & Hnd & Hlen).
  exists ps, r. split; [done|]. split; [apply trace_after_probes|].
  split; [done|]. split.
  - unfold pass_bound in Hlen. replace (tp - 1 + 1) with tp in Hlen by lia.
    destruct (tp <=? 0) eqn:E; lia.
  - intros start end_ s1 start' end' s2 Hstep.
    inversion Hstep as [? ? ? ? ? ? Hle Hbody]; subst.
    rewrite loop_body_eq in Hbody.
    destruct (page_dates src _ _) as [[earliest latest]|e]; [|discriminate].
    injection Hbody as Hn _.
    pose proof (narrow_bounds _ _ _ _ _ _ _ Hle Hn). lia.
Qed.

Lemma search_loads_logarithmic_witness :
  1 <= 5
  /\ exists ps r,
       search_loop sample_source 1 5 (sample_fetcher 10)
       = Some (r, after_probes sample_source ps (sample_fetcher 10))
       /\ NoDup ps /\ Z.of_nat (length ps) <= Z.log2 5 + 1.
Proof.
  split; [lia|].
  destruct (search_loads_logarithmic sample_source (sample_fetcher 10) 5
              ltac:(lia)) as (ps & r & H1 & _ & H3 & H4 & _).
  exists ps, r. auto.
Defined.

Section SearchInvariant.

Variable src : Source.

Lemma loop_step_bounds (start end_ start' end' : Z) (s s' : Fetcher) :
  loop_step src (start, end_, s) (start', end', s') ->
  start <= end_ /\ start <= start' /\ end' <= end_ /\ start' <= end' + 1.
Proof.
  intros Hstep. inversion Hstep as [? ? ? ? ? ? Hle Hbody]; subst.
  rewrite loop_body_eq in Hbody.
  destruct (page_dates src _ _) as [[earliest latest]|e]; [|discriminate].
  injection Hbody as Hn _.
  pose proof (narrow_bounds _ _ _ _ _ _ _ Hle Hn). lia.
Qed.

(** The value the loop function returns is reached by passes through the
    loop body, and the loop condition fails there. *)
Lemma search_loop_reaches (start end_ : Z) (s : Fetcher) (a b : Z)
    (s' : Fetcher) :
  search_loop src start end_ s = Some (Ok (a, b), s') ->
  rtc (loop_step src) (start, end_, s) (a, b, s') /\ ~ a <= b.
Proof.
  remember (Z.to_nat (end_ - start + 1)) as n eqn:Hn.
  revert start end_ s Hn.
  induction n as [n IH] using lt_wf_ind. intros start end_ s Hn.
  rewrite search_loop_iterates.
  destruct (decide (start <= end_)) as [Hle|Hgt].
  - destruct (loop_body src start end_ s) as [[[[a' b']|e] s1]|] eqn:Hbody;
      [|discriminate..].
    intros Hloop.
    assert (Hstep : loop_step src (start, end_, s) (a', b', s1))
      by by constructor.
    pose proof (loop_step_bounds _ _ _ _ _ _ Hstep) as Hb.
    assert (Hshrink : b' - a' < end_ - start).
    { rewrite loop_body_eq in Hbody.
      destruct (page_dates src _ _) as [[earliest latest]|e]; [|discriminate].
      injection Hbody as Hnar _.
      pose proof (narrow_bounds _ _ _ _ _ _ _ Hle Hnar). lia. }
    destruct (IH (Z.to_nat (b' - a' + 1)) ltac:(lia) a' b' s1 eq_refl Hloop)
      as [Hrtc Hexit].
    split; [|done]. eapply rtc_l; eauto.
  - intros [= <- <- <-]. split; [apply rtc_refl | done].
Qed.

End SearchInvariant.

(** C6. From [start = 1] and [end = total_page >= 1], whatever the pages
    show, [1 <= start] and [end <= total_page] hold whenever the loop
    condition is tested, and the page the loop ends on lies between 1 and
    [total_page + 1]. *)
Theorem search_bounds_invariant (src : Source) (s : Fetcher) (tp : Z) :
  1 <= tp ->
  (forall start end_ s',
     rtc (loop_step src) (1, tp, s) (start, end_, s') ->
     1 <= start /\ end_ <= tp)
  /\ (forall p e s',
        search_loop src 1 tp s = Some (Ok (p, e), s') ->
        rtc (loop_step src) (1, tp, s) (p, e, s') /\ 1 <= p <= tp + 1).
Proof.
  intros Htp.
  assert (Hinv : forall c, rtc (loop_step src) (1, tp, s) c ->
                 1 <= c.1.1 /\ c.1.2 <= tp /\ c.1.1 <= c.1.2 + 1).
  { intros c Hc.
    eapply (rtc_ind_r
              (fun c => 1 <= c.1.1 /\ c.1.2 <= tp /\ c.1.1 <= c.1.2 + 1));
      [| |exact Hc].
    - cbn. lia.
    - intros [[a b] s1] [[a' b'] s2] _ Hstep IH. cbn in *.
      pose proof (loop_step_bounds _ _ _ _ _ _ _ Hstep). lia. }
  split.
  - intros start end_ s' Hc. specialize (Hinv _ Hc). cbn in Hinv. lia.
  - intros p e s' Hloop.
    destruct (search_loop_reaches src _ _ _ _ _ _ Hloop) as [Hrtc Hexit].
    split; [done|]. specialize (Hinv _ Hrtc). cbn in Hinv. lia.
Qed.

Lemma search_bounds_invariant_witness :
  1 <= 5
  /\ (forall p e s',
        search_loop sample_source 1 5 (sample_fetcher 10)
        = Some (Ok (p, e), s') ->
        1 <= p <= 5 + 1).
Proof.
  split; [lia|]. intros p e s' H.
  apply (search_bounds_invariant sample_source (sample_fetcher 10) 5
           ltac:(lia)) in H.
  apply H.
Defined.

(** C2. On a listing of [total_page >= 1] pages that, whenever they are
    loaded, list at least one entry and show the same first and last
    dates, dates that never grow from one page to the next, the search
    ends on the first page whose span of dates contains the target date,
    or, when no page contains it, on the insertion boundary. *)
Theorem search_finds_first_page (src : Source) (s : Fetcher) (tp : Z)
    (newest oldest : Z -> date) :
  1 <= tp ->
  (forall t i, 1 <= i <= tp -> page_dates src t i = Ok (newest i, oldest i)) ->
  (forall i j, 1 <= i < j -> j <= tp ->
     date_le (newest j) (newest i) /\ date_le (oldest j) (oldest i)) ->
  exists p s',
    search_loop src 1 tp s = Some (Ok (p, p - 1), s')
    /\ (first_covering newest oldest (date_ s) tp p
        \/ insertion_boundary newest oldest (date_ s) tp p).
Proof.
  intros Htp Hload Hdesc.
  destruct (search_loop_run src 1 tp s) as (ps & r & Hloop & Hrun).
  destruct (search_run_locates src (date_ s) tp newest oldest Hload Hdesc
              (loads_made s) 1 tp ps r Hrun) as (p & -> & Hp & Hbefore & Hafter);
    try lia.
  exists p, (after_probes src ps s). split; [done|].
  by apply (meeting_point (date_ s) tp newest oldest Hdesc).
Qed.

Lemma search_finds_first_page_witness :
  1 <= 5
  /\ (forall t i, 1 <= i <= 5 ->
        page_dates sample_source t i = Ok (sample_newest i, sample_oldest i))
  /\ (forall i j, 1 <= i < j -> j <= 5 ->
        date_le (sample_newest j) (sample_newest i)
        /\ date_le (sample_oldest j) (sample_oldest i))
  /\ exists p s',
       search_loop sample_source 1 5 (sample_fetcher 10)
       = Some (Ok (p, p - 1), s')
       /\ (first_covering sample_newest sample_oldest (sample_day 10) 5 p
           \/ insertion_boundary sample_newest sample_oldest (sample_day 10)
                5 p).
Proof.
  assert (H2 : forall t i, 1 <= i <= 5 ->
            page_dates sample_source t i
            = Ok (sample_newest i, sample_oldest i)).
  { intros t i Hi.
    assert (i = 1 \/ i = 2 \/ i = 3 \/ i = 4 \/ i = 5) as Hc by lia.
    destruct Hc as [->|[->|[->|[->| ->]]]]; reflexivity. }
  assert (H3 : forall i j, 1 <= i < j -> j <= 5 ->
            date_le (sample_newest j) (sample_newest i)
            /\ date_le (sample_oldest j) (sample_oldest i)).
  { intros i j Hi Hj.
    assert (i = 1 \/ i = 2 \/ i = 3 \/ i = 4) as Hc by lia.
    assert (j = 2 \/ j = 3 \/ j = 4 \/ j = 5) as Hd by lia.
    destruct Hc as [->|[->|[->| ->]]]; destruct Hd as [->|[->|[->| ->]]];
      try lia; split; reflexivity. }
  split; [lia|]. split; [exact H2|]. split; [exact H3|].
  apply (search_finds_first_page sample_source (sample_fetcher 10) 5
           sample_newest sample_oldest ltac:(lia) H2 H3).
Defined.
(** * The detail fetch and the pool *)




(** C4. For a page of the window whose listing loads, whatever the order
    [finish] in which the workers of the pool finish and whenever the
    result iterator reacts ([reacts]): the articles yielded are the first
    [k] of the page, in the order of the listing, each with the fields of
    its entry and what its detail fetch read;
    [k] is the number of entries, and the page ends normally, unless an
    entry does not decode (then nothing is yielded and its exception is
    raised) or a detail fetch raises (then [k] is the first entry whose
    detail fetch raises, and its exception is raised). *)
Theorem fetch_page_yields_in_listing_order (src : Source)
    (finish : Z -> nat -> nat) (reacts : Z -> nat -> bool) (page : Z)
    (entries : list (result RawPost)) (s : Fetcher) :
  src_listing src (loads_made s) page = Ok entries ->
  exists k r s',
    fetch_page (with_schedule finish reacts src) page s = Some (r, s')
    /\ (k <= length (decoded entries))%nat
    /\ out s' = out s ++ seq (length (heap s)) k
    /\ (forall i p, (i < k)%nat -> decoded entries !! i = Some p ->
          detail_failure src (make_article (code s) p) = None
          /\ heap s' !! (length (heap s) + i)%nat
             = Some (row_of src (code s) p))
    /\ match entries_failure entries with
       | Some e => k = 0%nat /\ r = Raise e
       | None =>
           (k = length entries /\ r = Ok tt)
           \/ exists p e,
                decoded entries !! k = Some p
                /\ detail_failure src (make_article (code s) p) = Some e
                /\ r = Raise e
       end.
Proof.
  intros Hentries.
  destruct (fetch_page_cases (with_schedule finish reacts src) page s)
    as (k & r & s' & Hfetch & Hout & _ & _ & _ & _ & _ & Hcases).
  cbn [with_schedule src_listing] in Hcases. rewrite Hentries in Hcases.
  destruct Hcases as (Hk & _ & _ & Hdone & Hend).
  exists k, r, s'. split; [exact Hfetch|]. split; [exact Hk|].
  split; [exact Hout|]. split; [|exact Hend].
  intros i p Hi Hp. destruct (Hdone i p Hi Hp) as [Hnone Hheap].
  split; [exact Hnone|].
  by rewrite <- (fetched_row src (code s) p (detail_failure_opens src _ Hnone)).
Qed.



Lemma fetch_page_yields_in_listing_order_witness :
  src_listing rally_source (loads_made (sample_fetcher 10)) 2
  = Ok [Ok (sample_post "c" 18); Ok rally_post; Ok (sample_post "d" 15)]
  /\ exists k r s',
       fetch_page (with_schedule (fun _ k => k) (fun _ _ => false) rally_source)
         2 (sample_fetcher 10) = Some (r, s')
       /\ out s' = seq 0 k /\ (k <= 3)%nat.
Proof.
  split; [reflexivity|].
  destruct (fetch_page_yields_in_listing_order rally_source (fun _ k => k)
              (fun _ _ => false) 2
              [Ok (sample_post "c" 18); Ok rally_post; Ok (sample_post "d" 15)]
              (sample_fetcher 10) eq_refl) as (k & r & s' & H1 & H2 & H3 & _).
  exists k, r, s'. split; [exact H1|]. split; [exact H3 | exact H2].
Defined.

(** Four items on four workers: the third finishes first, the first last,
    and the items are yielded first to fourth. *)
Example pool_reorders_completions :
  let s := after_listing 4
             [sample_post "A" 10; sample_post "B" 10; sample_post "C" 10;
              sample_post "D" 10] (sample_fetcher 10) in
  let third_first (k : nat) : nat := match k with O => 2 | _ => 1 end%nat in
  let batch : generator loc := ret (ret <$> [0; 1; 2; 3]%nat) in
  (content_writes ∘ trace ∘ snd
   <$> executor_map (get_article_detail sample_source) third_first
         (fun _ => true) batch s) = Some [2; 1; 3; 0]%nat
  /\ (out ∘ snd
      <$> executor_map (get_article_detail sample_source) third_first
            (fun _ => true) batch s) = Some [0; 1; 2; 3]%nat.
Proof. split; vm_compute; reflexivity. Qed.

(** Six items on four workers, the first with a title that does not
    print: when the result iterator sees the exception at once, the two
    items that wait for a worker are cancelled; when it does not, they are
    fetched all the same. Nothing is yielded either way. *)
Example pool_cancels_after_exception :
  let s := after_listing 4
             [rally_post; sample_post "B" 10; sample_post "C" 10;
              sample_post "D" 10; sample_post "E" 10; sample_post "F" 10]
             (sample_fetcher 10) in
  let batch : generator loc := ret (ret <$> [0; 1; 2; 3; 4; 5]%nat) in
  let run reacts :=
    executor_map (get_article_detail sample_source) (fun _ => 0%nat) reacts
      batch s in
  (fst <$> run (fun _ => true)) = Some (Raise MarkupError)
  /\ (content_writes ∘ trace ∘ snd <$> run (fun _ => true))
     = Some [1; 2; 3]%nat
  /\ (fst <$> run (fun _ => false)) = Some (Raise MarkupError)
  /\ (content_writes ∘ trace ∘ snd <$> run (fun _ => false))
     = Some [1; 2; 3; 4; 5]%nat
  /\ (out ∘ snd <$> run (fun _ => true)) = Some []
  /\ (out ∘ snd <$> run (fun _ => false)) = Some [].
Proof. repeat split; vm_compute; reflexivity. Qed.
(** * Failures *)

Section Failures.

Variable src : Source.

Lemma get_total_page_effect (s s1 : Fetcher) :
  get_total_page src s = Some (Ok tt, s1) ->
  out s1 = out s /\ date_ s1 = date_ s
  /\ detail_events (trace s1) = detail_events (trace s).
Proof.
  rewrite get_total_page_eq. destruct (total_page s =? -1).
  - destruct (discovered src) as [n|e]; [|discriminate].
    intros [= <-]. cbn. repeat split.
    unfold detail_events. rewrite List.filter_app. cbn. by rewrite app_nil_r.
  - by intros [= <-].
Qed.

Lemma page_dates_empty (t : nat) (pn : Z) :
  src_listing src t pn = Ok [] -> page_dates src t pn = Raise IndexError.
Proof. unfold page_dates. by intros ->. Qed.

Lemma page_dates_fails (t : nat) (pn : Z) (e : exn) :
  src_listing src t pn = Raise e -> page_dates src t pn = Raise e.
Proof. unfold page_dates. by intros ->. Qed.

(** A search that raises ends the run there. *)
Lemma run_search_raises (s s1 : Fetcher) (ps : list Z) (e : exn) :
  get_total_page src s = Some (Ok tt, s1) ->
  search_run src (date_ s1) (loads_made s1) 1 (total_page s1) ps (Raise e) ->
  get_articles_with_date src s = Some (Raise e, after_probes src ps s1)
  /\ out (after_probes src ps s1) = out s
  /\ detail_events (trace (after_probes src ps s1)) = detail_events (trace s).
Proof.
  intros Hdisc Hrun.
  destruct (search_loop_run src 1 (total_page s1) s1)
    as (ps' & r' & Hloop & Hrun').
  destruct (search_run_det src _ _ _ _ _ _ _ _ Hrun Hrun') as [<- <-].
  split; [by rewrite get_articles_with_date_eq, Hdisc, Hloop|].
  destruct (get_total_page_effect s s1 Hdisc) as (Ho & _ & Ht).
  by rewrite out_after_probes, trace_after_probes, detail_events_gets.
Qed.

End Failures.

(** C7. [get_date_range] of an empty sequence raises (Python's
    [IndexError], from [articles[0]]) and gives no range; and when the
    search loads a page, as its [k]-th, that lists nothing then,
    [get_articles_with_date] raises that error, having yielded nothing and
    opened no detail tab. *)
Theorem empty_page_aborts_run (src : Source) (s s1 : Fetcher) (k : nat)
    (pn : Z) (ps : list Z) (r : result (Z * Z)) :
  get_total_page src s = Some (Ok tt, s1) ->
  search_run src (date_ s1) (loads_made s1) 1 (total_page s1) ps r ->
  ps !! k = Some pn ->
  src_listing src (loads_made s1 + k) pn = Ok [] ->
  (forall s', get_date_range (ret []) s' = Some (Raise IndexError, s'))
  /\ (forall s',
        src_listing src (loads_made s') pn = Ok [] ->
        get_date_range (get_article_list src pn) s'
        = Some (Raise IndexError, after_listing pn [] s'))
  /\ exists s',
       get_articles_with_date src s = Some (Raise IndexError, s')
       /\ out s' = out s
       /\ detail_events (trace s') = detail_events (trace s).
Proof.
  intros Hdisc Hrun Hk Hempty. split; [|split].
  - intros s'. unfold get_date_range, py_list. munfold. cbn.
    by rewrite py_index_nil.
  - intros s' Hs'. rewrite get_date_range_eq. unfold after_probe.
    by rewrite (page_dates_empty src _ pn Hs'), Hs'.
  - pose proof (search_run_raises src _ _ _ _ _ _ k pn IndexError Hrun Hk
                  (page_dates_empty src _ pn Hempty)) as ->.
    exists (after_probes src ps s1). by apply run_search_raises.
Qed.

Lemma empty_page_aborts_run_witness :
  get_total_page gap_source (sample_fetcher 10)
  = Some (Ok tt, with_total_page 5 (after_get 1 (sample_fetcher 10)))
  /\ search_run gap_source (sample_day 10) 1 1 5 [3] (Raise IndexError)
  /\ [3] !! 0%nat = Some 3
  /\ src_listing gap_source 1 3 = Ok []
  /\ exists s',
       get_articles_with_date gap_source (sample_fetcher 10)
       = Some (Raise IndexError, s')
       /\ out s' = [].
Proof.
  assert (H2 : search_run gap_source (sample_day 10) 1 1 5 [3]
                 (Raise IndexError)).
  { apply (search_raise gap_source (sample_day 10) 1 1 5 IndexError);
      [lia | reflexivity]. }
  split; [reflexivity|]. split; [exact H2|]. split; [reflexivity|].
  split; [reflexivity|].
  destruct (empty_page_aborts_run gap_source (sample_fetcher 10) _ 0%nat 3 [3]
              (Raise IndexError) eq_refl H2 eq_refl eq_refl)
    as (_ & _ & s' & H4 & H5 & _).
  exists s'. split; [exact H4 | exact H5].
Defined.

(** C8, as the code has it. When the pager of page 1 says there are 0
    pages, [get_articles_with_date] raises nothing: the loop body is never
    entered, the window [1, 0] is empty, no listing page is loaded after
    the discovery and the run ends normally having yielded nothing. *)
Theorem zero_pages_yields_nothing (src : Source) (s : Fetcher) :
  total_page s = -1 ->
  discovered src = Ok 0 ->
  search_loop src 1 0 (with_total_page 0 (after_get 1 s))
  = Some (Ok (1, 0), with_total_page 0 (after_get 1 s))
  /\ py_range (start_page_of 1) (end_page_of 0 0 + 1) = []
  /\ get_articles_with_date src s
     = Some (Ok tt, with_total_page 0 (after_get 1 s)).
Proof.
  intros Hs Hd.
  assert (Hloop : search_loop src 1 0 (with_total_page 0 (after_get 1 s))
                  = Some (Ok (1, 0), with_total_page 0 (after_get 1 s))).
  { rewrite search_loop_iterates. destruct (decide (1 <= 0)); [lia | done]. }
  split; [exact Hloop|]. split; [reflexivity|].
  rewrite get_articles_with_date_eq, get_total_page_eq, Hs, Hd.
  change (-1 =? -1) with true. cbv iota beta.
  change (total_page (with_total_page 0 (after_get 1 s))) with 0.
  rewrite Hloop. reflexivity.
Qed.

Lemma zero_pages_yields_nothing_witness :
  total_page (sample_fetcher 10) = -1
  /\ discovered empty_source = Ok 0
  /\ get_articles_with_date empty_source (sample_fetcher 10)
     = Some (Ok tt, with_total_page 0 (after_get 1 (sample_fetcher 10))).
Proof.
  split; [reflexivity|]. split; [reflexivity|].
  apply (zero_pages_yields_nothing empty_source (sample_fetcher 10)
           eq_refl eq_refl).
Defined.

(** With 0 pages the run ends normally, without an error. *)
Lemma zero_pages_returns_silently :
  discovered empty_source = Ok 0
  /\ fst <$> get_articles_with_date empty_source (sample_fetcher 10)
     = Some (Ok tt)
  /\ forall e s',
       get_articles_with_date empty_source (sample_fetcher 10)
       <> Some (Raise e, s').
Proof.
  split; [reflexivity|]. split; [vm_compute; reflexivity|].
  intros e s'. vm_compute. discriminate.
Qed.

(** * The page count *)

(** C10, as the code has it. A call of [get_total_page] made while
    [total_page] is -1 loads page 1 once; when it reads a page count other
    than -1 off the pager it stores it, and from then on any number of
    further calls load nothing and change nothing. *)
Theorem total_page_cached_after_success (src : Source) (s : Fetcher) (n : Z)
    (k : nat) :
  total_page s = -1 ->
  discovered src = Ok n ->
  n <> -1 ->
  get_total_page src s = Some (Ok tt, with_total_page n (after_get 1 s))
  /\ listing_gets (trace (with_total_page n (after_get 1 s)))
     = listing_gets (trace s) ++ [1]
  /\ call_times (get_total_page src) k (with_total_page n (after_get 1 s))
     = Some (Ok tt, with_total_page n (after_get 1 s)).
Proof.
  intros Hs Hd Hn. split; [|split].
  - rewrite get_total_page_eq, Hs, Hd. reflexivity.
  - cbn. unfold listing_gets. by rewrite omap_app.
  - by apply call_times_known.
Qed.

Lemma total_page_cached_after_success_witness :
  total_page (sample_fetcher 10) = -1
  /\ discovered sample_source = Ok 5
  /\ 5 <> -1
  /\ call_times (get_total_page sample_source) 3
       (with_total_page 5 (after_get 1 (sample_fetcher 10)))
     = Some (Ok tt, with_total_page 5 (after_get 1 (sample_fetcher 10))).
Proof.
  split; [reflexivity|]. split; [reflexivity|]. split; [lia|].
  apply (total_page_cached_after_success sample_source (sample_fetcher 10) 5
           3 eq_refl eq_refl ltac:(lia)).
Defined.

(** A first call that raises leaves [total_page] at -1, and the second
    call loads page 1 again. *)
Lemma failed_discovery_navigates_again :
  get_total_page missing_source (sample_fetcher 10)
  = Some (Raise PageNotFound, after_get 1 (sample_fetcher 10))
  /\ total_page (after_get 1 (sample_fetcher 10)) = -1
  /\ get_total_page missing_source (after_get 1 (sample_fetcher 10))
     = Some (Raise PageNotFound, after_get 1 (after_get 1 (sample_fetcher 10)))
  /\ listing_gets (trace (after_get 1 (after_get 1 (sample_fetcher 10))))
     = [1; 1].
Proof. repeat split; vm_compute; reflexivity. Qed.

(** * The window *)

(** C1, on the sample forum with the 18th as target date. The search ends
    on page 1 with [end = 0]; the window the code computes is [1, 1], so
    page 1 alone is fetched (two items yielded), although page 2 also
    holds an entry of the 18th; [max(1, p-1)] to [min(total_page, p+1)]
    is [1, 2]. *)
Theorem window_misses_next_page :
  (fst <$> search_loop sample_source 1 5
             (with_total_page 5 (after_get 1 (sample_fetcher 18))))
  = Some (Ok (1, 0))
  /\ (start_page_of 1, end_page_of 0 5) = (1, 1)
  /\ (Z.max 1 (1 - 1), Z.min 5 (1 + 1)) = (1, 2)
  /\ (listing_gets ∘ trace ∘ snd
      <$> get_articles_with_date sample_source (sample_fetcher 18))
     = Some [1; 3; 1; 1]
  /\ (out ∘ snd <$> get_articles_with_date sample_source (sample_fetcher 18))
     = Some [4; 5]%nat
  /\ covers sample_newest sample_oldest (sample_day 18) 2.
Proof. repeat split; vm_compute; reflexivity. Qed.

(** The window in general: from the page before the one the search ends
    on, to that page. *)
Lemma window_ends_at_boundary (src : Source) (s : Fetcher) (tp p e : Z)
    (s' : Fetcher) :
  0 <= tp ->
  search_loop src 1 tp s = Some (Ok (p, e), s') ->
  start_page_of p = Z.max 1 (p - 1) /\ end_page_of e tp = Z.min tp p.
Proof.
  intros Htp Hloop.
  destruct (search_loop_run src 1 tp s) as (ps & r & Hloop' & Hrun).
  rewrite Hloop in Hloop'. injection Hloop' as <- _.
  by apply (window_after_search src (date_ s) (loads_made s) tp ps).
Qed.
(** * More of the fetcher *)

(** ** Reading the pager *)

Lemma py_index_second_last {A} (pre : list A) (x y : A) :
  py_index (pre ++ [x; y]) (-2) = Ok x.
Proof.
  unfold py_index.
  replace (-2 <? 0) with true by reflexivity. cbv beta zeta.
  rewrite length_app. cbn [length].
  replace ((0 <=? Z.of_nat (length pre + 2) + -2)
           && (Z.of_nat (length pre + 2) + -2 <? Z.of_nat (length pre + 2)))
    with true
    by (symmetry; apply andb_true_iff; split;
        [apply Z.leb_le | apply Z.ltb_lt]; lia).
  replace (Z.to_nat (Z.of_nat (length pre + 2) + -2)) with (length pre) by lia.
  by rewrite list_lookup_middle.
Qed.

Lemma py_index_too_short {A} (xs : list A) (i : Z) :
  Z.of_nat (length xs) < - i -> py_index xs i = Raise IndexError.
Proof.
  intros H. unfold py_index.
  destruct (i <? 0) eqn:Hi; [|apply Z.ltb_ge in Hi; lia].
  destruct (_ && _) eqn:Hb; [|reflexivity].
  apply andb_true_iff in Hb as [H1%Z.leb_le _]. lia.
Qed.

(** X1. When page 1 is not the error page and its pager is found,
    [get_total_page] reads the last but one entry of the pager: with fewer
    than two entries it raises [IndexError], and otherwise it stores the
    number on that entry, or raises what [int] raises on it; whenever it
    raises, [total_page] stays -1. *)
Theorem get_total_page_reads_pager (src : Source) (s : Fetcher)
    (pagers : list (result Z)) :
  total_page s = -1 ->
  String.eqb (pg_url (src_paging src)) error_url = false ->
  pg_pagers (src_paging src) = Ok pagers ->
  ((length pagers < 2)%nat ->
   get_total_page src s = Some (Raise IndexError, after_get 1 s))
  /\ (forall pre n next,
        pagers = pre ++ [Ok n; next] ->
        get_total_page src s
        = Some (Ok tt, with_total_page n (after_get 1 s)))
  /\ (forall pre e next,
        pagers = pre ++ [Raise e; next] ->
        get_total_page src s = Some (Raise e, after_get 1 s))
  /\ total_page (after_get 1 s) = -1.
Proof.
  intros Hs Hurl Hp.
  assert (Hd : discovered src
               = match py_index pagers (-2) with
                 | Raise e => Raise e
                 | Ok last_page => last_page
                 end)
    by (unfold discovered; by rewrite Hurl, Hp).
  repeat split.
  - intros Hlen. rewrite get_total_page_eq, Hs, Hd.
    rewrite py_index_too_short by lia. reflexivity.
  - intros pre n next ->. rewrite get_total_page_eq, Hs, Hd.
    by rewrite py_index_second_last.
  - intros pre e next ->. rewrite get_total_page_eq, Hs, Hd.
    by rewrite py_index_second_last.
  - exact Hs.
Qed.

Lemma get_total_page_reads_pager_witness :
  total_page (sample_fetcher 10) = -1
  /\ String.eqb (pg_url (src_paging sample_source)) error_url = false
  /\ pg_pagers (src_paging sample_source)
     = Ok [Raise ValueError; Ok 1; Ok 2; Ok 5; Raise ValueError]
  /\ get_total_page sample_source (sample_fetcher 10)
     = Some (Ok tt, with_total_page 5 (after_get 1 (sample_fetcher 10))).
Proof.
  split; [reflexivity|]. split; [reflexivity|]. split; [reflexivity|].
  destruct (get_total_page_reads_pager sample_source (sample_fetcher 10)
              [Raise ValueError; Ok 1; Ok 2; Ok 5; Raise ValueError]
              eq_refl eq_refl eq_refl) as (_ & H & _).
  apply (H [Raise ValueError; Ok 1; Ok 2] 5 (Raise ValueError) eq_refl).
Defined.

(** ** The articles of a listing page *)

(** X2. When listing page [pn] loads and its entries decode, the
    articles of [get_article_list] are one new article per entry, in the
    order of the listing: the references it
    returns are pairwise distinct and name no article that existed before,
    every article that existed is as it was, and the article made from an
    entry has the entry's title, the address built from its id, its
    publication time and an empty [content]. The page is loaded once and
    nothing is yielded. *)
Theorem get_article_list_creates (src : Source) (pn : Z)
    (posts : list RawPost) (s : Fetcher) :
  src_listing src (loads_made s) pn = Ok (Ok <$> posts) ->
  exists ls s',
    py_list (get_article_list src pn) s = Some (Ok ls, s')
    /\ length ls = length posts
    /\ NoDup ls
    /\ (forall l a, heap s !! l = Some a -> heap s' !! l = Some a /\ l ∉ ls)
    /\ (forall i l p, ls !! i = Some l -> posts !! i = Some p ->
          heap s' !! l
          = Some (mkArticle (post_title p)
                    (get_article_url (code s) (post_id p))
                    (post_publish_time p) ""))
    /\ trace s' = trace s ++ [EvGet pn (get_url (code s) pn)]
    /\ out s' = out s /\ total_page s' = total_page s.
Proof.
  intros Hposts. rewrite py_list_listing. unfold after_probe.
  rewrite Hposts, entries_failure_Ok, decoded_Ok.
  eexists _, _. split; [reflexivity|].
  split; [apply length_seq|]. split; [apply NoDup_seq|].
  assert (Hheap : heap (after_listing pn posts s)
                  = heap s ++ (make_article (code s) <$> posts))
    by reflexivity.
  split; [|split; [|done]].
  - intros l a Hl. pose proof (lookup_lt_Some _ _ _ Hl) as Hlt. split.
    + rewrite Hheap. by apply lookup_app_l_Some.
    + intros Hin%elem_of_seq. lia.
  - intros i l p Hi Hp. apply lookup_seq in Hi as [-> Hi].
    rewrite Hheap, lookup_app_r by lia.
    replace (length (heap s) + i - length (heap s))%nat with i by lia.
    by rewrite list_lookup_fmap, Hp.
Qed.

Lemma get_article_list_creates_witness :
  src_listing sample_source (loads_made (sample_fetcher 10)) 2
  = Ok (Ok <$> [sample_post "c" 18; sample_post "d" 15])
  /\ exists ls s',
       py_list (get_article_list sample_source 2) (sample_fetcher 10)
       = Some (Ok ls, s')
       /\ length ls = 2%nat /\ NoDup ls.
Proof.
  split; [reflexivity|].
  destruct (get_article_list_creates sample_source 2
              [sample_post "c" 18; sample_post "d" 15] (sample_fetcher 10)
              eq_refl) as (ls & s' & H1 & H2 & H3 & _).
  exists ls, s'. split; [exact H1|]. split; [exact H2 | exact H3].
Defined.

(** When listing page [pn] fails to load or holds no list that decodes,
    no article is made. *)
Lemma get_article_list_fails (src : Source) (pn : Z) (e : exn) (s : Fetcher) :
  src_listing src (loads_made s) pn = Raise e ->
  py_list (get_article_list src pn) s = Some (Raise e, after_get pn s).
Proof. intros H. rewrite py_list_listing. unfold after_probe. by rewrite H. Qed.

(** When an entry of the page does not decode, the articles of the
    entries before it have been made, and the exception of the entry is
    raised. *)
Lemma get_article_list_stops (src : Source) (pn : Z)
    (entries : list (result RawPost)) (e : exn) (s : Fetcher) :
  src_listing src (loads_made s) pn = Ok entries ->
  entries_failure entries = Some e ->
  py_list (get_article_list src pn) s
  = Some (Raise e, after_listing pn (decoded entries) s).
Proof.
  intros H He. rewrite py_list_listing. unfold after_probe. by rewrite H, He.
Qed.

(** ** The two dates of a page *)

(** X3. On a page that lists at least one entry, newest first,
    [get_date_range] returns the newest date of the page first and the
    oldest second: the value the search names [earliest_date_mid] is the
    latest date on the page, [latest_date_mid] the earliest, and every
    entry of the page is dated between the two. *)
Theorem get_date_range_newest_first (src : Source) (pn : Z)
    (posts : list RawPost) (s : Fetcher) :
  src_listing src (loads_made s) pn = Ok (Ok <$> posts) ->
  posts <> [] ->
  newest_first posts ->
  exists earliest_date_mid latest_date_mid s',
    get_date_range (get_article_list src pn) s
    = Some (Ok (earliest_date_mid, latest_date_mid), s')
    /\ date_le latest_date_mid earliest_date_mid
    /\ forall p, p ∈ posts ->
         date_le latest_date_mid (datetime_date (post_publish_time p))
         /\ date_le (datetime_date (post_publish_time p)) earliest_date_mid.
Proof.
  intros Hposts Hne Hsorted. rewrite get_date_range_eq.
  unfold page_dates. rewrite Hposts, entries_failure_Ok, decoded_Ok.
  destruct posts as [|p0 ps]; [done|]. cbn [range_of].
  destruct (last (p0 :: ps)) as [pl|] eqn:Hlast;
    [|apply last_None in Hlast; discriminate].
  cbn [default from_option id].
  change (from_option id p0 (Some pl)) with pl.
  rewrite last_lookup in Hlast. cbn [length Nat.pred] in Hlast.
  eexists _, _, _. split; [reflexivity|]. split.
  - apply (Hsorted 0%nat (length ps) p0 pl); [lia | done | done].
  - intros p [i Hi]%list_elem_of_lookup.
    pose proof (lookup_lt_Some _ _ _ Hi) as Hlt. cbn [length] in Hlt. split.
    + apply (Hsorted i (length ps) p pl); [lia | done | done].
    + apply (Hsorted 0%nat i p0 p); [lia | done | done].
Qed.

Lemma get_date_range_newest_first_witness :
  src_listing sample_source (loads_made (sample_fetcher 10)) 3
  = Ok (Ok <$> [sample_post "e" 15; sample_post "f" 10])
  /\ [sample_post "e" 15; sample_post "f" 10] <> []
  /\ newest_first [sample_post "e" 15; sample_post "f" 10]
  /\ exists earliest_date_mid latest_date_mid s',
       get_date_range (get_article_list sample_source 3) (sample_fetcher 10)
       = Some (Ok (earliest_date_mid, latest_date_mid), s')
       /\ date_le latest_date_mid earliest_date_mid.
Proof.
  assert (H3 : newest_first [sample_post "e" 15; sample_post "f" 10]).
  { intros i j p q Hij Hi Hj.
    destruct i as [|[|i]]; destruct j as [|[|j]];
      try discriminate; try lia;
      injection Hi as <-; injection Hj as <-; reflexivity. }
  split; [reflexivity|]. split; [discriminate|]. split; [exact H3|].
  destruct (get_date_range_newest_first sample_source 3
              [sample_post "e" 15; sample_post "f" 10] (sample_fetcher 10)
              eq_refl ltac:(discriminate) H3)
    as (d1 & d2 & s' & H4 & H5 & _).
  exists d1, d2, s'. split; [exact H4 | exact H5].
Defined.

(** ** What the search leaves alone *)

Section SearchFrame.

Variable src : Source.

Lemma heap_after_probe (pn : Z) (s : Fetcher) (l : loc) (a : Article) :
  heap s !! l = Some a -> heap (after_probe src pn s) !! l = Some a.
Proof.
  intros Hl. unfold after_probe.
  destruct (src_listing src _ pn) as [entries|e]; [|done].
  change (heap (after_listing pn (decoded entries) s))
    with (heap s ++ (make_article (code s) <$> decoded entries)).
  by apply lookup_app_l_Some.
Qed.

Lemma heap_after_probes (ps : list Z) (s : Fetcher) (l : loc) (a : Article) :
  heap s !! l = Some a -> heap (after_probes src ps s) !! l = Some a.
Proof.
  revert s. induction ps as [|p ps IH]; intros s Hl; [done|].
  rewrite after_probes_cons. apply IH. by apply heap_after_probe.
Qed.

Lemma content_writes_gets (t : list event) (ps : list Z) (c : string) :
  content_writes (t ++ ((fun p => EvGet p (get_url c p)) <$> ps))
  = content_writes t.
Proof.
  unfold content_writes. rewrite omap_app.
  induction ps as [|p ps IH]; cbn; [by rewrite app_nil_r | done].
Qed.

Lemma listing_gets_gets (t : list event) (ps : list Z) (c : string) :
  listing_gets (t ++ ((fun p => EvGet p (get_url c p)) <$> ps))
  = listing_gets t ++ ps.
Proof.
  unfold listing_gets. rewrite omap_app. f_equal.
  induction ps as [|p ps IH]; cbn; [done | by rewrite IH].
Qed.

End SearchFrame.

(** X4. Whatever the bounds and whatever the pages show, the search loop
    returns, and all it does is load listing pages: it yields nothing,
    opens no detail tab, assigns to no [content], leaves [total_page], the
    target date and the stock code as they are and every article that
    existed as it was. The pages it loads all lie between the bounds it
    was started with. *)
Theorem search_loop_only_loads (src : Source) (start end_ : Z) (s : Fetcher) :
  exists ps r s',
    search_loop src start end_ s = Some (r, s')
    /\ listing_gets (trace s') = listing_gets (trace s) ++ ps
    /\ (start <= end_ + 1 -> forall p, p ∈ ps -> start <= p <= end_)
    /\ detail_events (trace s') = detail_events (trace s)
    /\ content_writes (trace s') = content_writes (trace s)
    /\ out s' = out s /\ total_page s' = total_page s
    /\ date_ s' = date_ s /\ code s' = code s
    /\ forall l a, heap s !! l = Some a -> heap s' !! l = Some a.
Proof.
  destruct (search_loop_run src start end_ s) as (ps & r & Hloop & Hrun).
  exists ps, r, (after_probes src ps s). split; [done|].
  rewrite trace_after_probes, listing_gets_gets, detail_events_gets,
    content_writes_gets, out_after_probes, total_page_after_probes,
    date_after_probes, code_after_probes.
  split; [done|]. split.
  { intros Hb. by apply (search_run_bounds src _ _ _ _ _ _ Hrun Hb). }
  do 6 (split; [done|]).
  intros l a. apply heap_after_probes.
Qed.

(** ** Failures of the listing during the search *)

(** X5. When the search loads a listing page, as its [k]-th, that fails
    to load or to decode then with exception [e],
    [get_articles_with_date] raises that same [e], having yielded nothing
    and opened no detail tab. *)
Theorem listing_error_aborts_run (src : Source) (s s1 : Fetcher) (k : nat)
    (pn : Z) (ps : list Z) (r : result (Z * Z)) (e : exn) :
  get_total_page src s = Some (Ok tt, s1) ->
  search_run src (date_ s1) (loads_made s1) 1 (total_page s1) ps r ->
  ps !! k = Some pn ->
  src_listing src (loads_made s1 + k) pn = Raise e ->
  exists s',
    get_articles_with_date src s = Some (Raise e, s')
    /\ out s' = out s
    /\ detail_events (trace s') = detail_events (trace s).
Proof.
  intros Hdisc Hrun Hk Hfail.
  pose proof (search_run_raises src _ _ _ _ _ _ k pn e Hrun Hk
                (page_dates_fails src _ pn e Hfail)) as ->.
  exists (after_probes src ps s1). by apply run_search_raises.
Qed.

Lemma listing_error_aborts_run_witness :
  get_total_page broken_source (sample_fetcher 10)
  = Some (Ok tt, with_total_page 5 (after_get 1 (sample_fetcher 10)))
  /\ search_run broken_source (sample_day 10) 1 1 5 [3] (Raise AttributeError)
  /\ [3] !! 0%nat = Some 3
  /\ src_listing broken_source 1 3 = Raise AttributeError
  /\ exists s',
       get_articles_with_date broken_source (sample_fetcher 10)
       = Some (Raise AttributeError, s')
       /\ out s' = [].
Proof.
  assert (H2 : search_run broken_source (sample_day 10) 1 1 5 [3]
                 (Raise AttributeError)).
  { apply (search_raise broken_source (sample_day 10) 1 1 5 AttributeError);
      [lia | reflexivity]. }
  split; [reflexivity|]. split; [exact H2|]. split; [reflexivity|].
  split; [reflexivity|].
  destruct (listing_error_aborts_run broken_source (sample_fetcher 10) _
              0%nat 3 [3] (Raise AttributeError) AttributeError eq_refl H2
              eq_refl eq_refl)
    as (s' & H4 & H5 & _).
  exists s'. split; [exact H4 | exact H5].
Defined.
(** ** What every step of a run preserves *)

Section Preservation.

Variable src : Source.
Variable P : Fetcher -> Prop.

Hypothesis P_get : forall s pn, P s -> P (after_get pn s).
Hypothesis P_heap : forall s h, P s -> P (with_heap h s).
Hypothesis P_out : forall s o, P s -> P (with_out o s).
Hypothesis P_total : forall s n, P s -> P (with_total_page n s).
Hypothesis P_detail : forall s l a,
  P s -> P (with_trace (trace s ++ detail_trace src l a) s).

Lemma detail_preserves (l : loc) (s : Fetcher) (r : result loc)
    (s' : Fetcher) :
  get_article_detail src l s = Some (r, s') -> P s -> P s'.
Proof.
  intros (a & _ & _ & ->)%get_article_detail_inv Hs.
  unfold after_detail.
  apply (P_detail (with_heap (<[l:=fetched src a]> (heap s)) s) l a).
  by apply P_heap.
Qed.

Lemma pool_run_preserves (pick : nat -> nat) (reacts : nat -> bool)
    (n k : nat) (p : pool) (s : Fetcher) (r : result pool) (s' : Fetcher) :
  pool_run (get_article_detail src) pick reacts n k p s = Some (r, s') ->
  P s -> P s'.
Proof.
  revert k p s. induction n as [|n IH]; intros k p s.
  - by intros [= <- <-].
  - cbn [pool_run]. munfold. unfold pool_finish.
    destruct (running p !! _) as [[i l]|].
    + destruct (get_article_detail src l s) as [[r1 s1]|] eqn:Hd;
        [|discriminate].
      cbv zeta. intros Hrun Hs. eapply IH; [exact Hrun|].
      eapply detail_preserves; eauto.
    + apply IH.
Qed.

Lemma yield_results_preserves (fs : list (option (result loc))) (s : Fetcher)
    (r : result unit) (s' : Fetcher) :
  yield_results fs s = Some (r, s') -> P s -> P s'.
Proof.
  revert s. induction fs as [|[[l|e]|] fs IH]; intros s; cbn; munfold.
  - by intros [= <- <-].
  - intros Hy Hs. eapply IH; [exact Hy|].
    apply (P_out s (out s ++ [l]) Hs).
  - by intros [= <- <-].
  - discriminate.
Qed.

Lemma fetch_page_preserves (page : Z) (s : Fetcher) (r : result unit)
    (s' : Fetcher) :
  fetch_page src page s = Some (r, s') -> P s -> P s'.
Proof.
  rewrite fetch_page_eq.
  destruct (src_listing src (loads_made s) page) as [entries|e].
  - cbv zeta. intros Hmap Hs.
    assert (H0 : P (after_listing page (decoded entries) s))
      by (unfold after_listing; apply P_heap; by apply P_get).
    destruct (entries_failure entries) as [e|];
      destruct (pool_run _ _ _ _ _ _ _) as [[[p|e'] s1]|] eqn:Hrun;
      try discriminate;
      pose proof (pool_run_preserves _ _ _ _ _ _ _ _ Hrun H0) as H1.
    + by injection Hmap as <- <-.
    + by injection Hmap as <- <-.
    + by eapply yield_results_preserves.
    + by injection Hmap as <- <-.
  - intros [= <- <-] Hs. by apply P_get.
Qed.

Lemma for_each_preserves (pages : list Z) (s : Fetcher) (r : result unit)
    (s' : Fetcher) :
  for_each pages (fetch_page src) s = Some (r, s') -> P s -> P s'.
Proof.
  revert s. induction pages as [|page pages IH]; intros s; cbn [for_each].
  - by intros [= <- <-].
  - munfold.
    destruct (fetch_page src page s) as [[[[]|e] s1]|] eqn:Hp; [| |discriminate].
    + intros Hrest Hs. eapply IH; [exact Hrest|].
      eapply fetch_page_preserves; eauto.
    + intros [= <- <-] Hs. eapply fetch_page_preserves; eauto.
Qed.

Lemma after_probes_preserves (ps : list Z) (s : Fetcher) :
  P s -> P (after_probes src ps s).
Proof.
  revert s. induction ps as [|p ps IH]; intros s Hs; [done|].
  rewrite after_probes_cons. apply IH. unfold after_probe.
  destruct (src_listing src _ p); [|by apply P_get].
  unfold after_listing. apply P_heap. by apply P_get.
Qed.

(** Whatever holds before a run and is kept by each of its steps holds
    where the run ends, however it ends. *)
Lemma run_preserves (s : Fetcher) (r : result unit) (s' : Fetcher) :
  get_articles_with_date src s = Some (r, s') -> P s -> P s'.
Proof.
  rewrite get_articles_with_date_eq, get_total_page_eq.
  intros Hrun Hs.
  assert (Hdisc : forall s1 r1,
            (if total_page s =? -1 then
               match discovered src with
               | Ok n => Some (Ok tt, with_total_page n (after_get 1 s))
               | Raise e => Some (Raise e, after_get 1 s)
               end
             else Some (Ok tt, s)) = Some (r1, s1) -> P s1).
  { intros s1 r1. destruct (total_page s =? -1).
    - destruct (discovered src); intros [= <- <-];
        [apply P_total|]; by apply P_get.
    - by intros [= <- <-]. }
  destruct (if total_page s =? -1 then _ else _) as [[[[]|e] s1]|] eqn:Hd;
    [| |discriminate].
  - specialize (Hdisc _ _ eq_refl).
    destruct (search_loop_run src 1 (total_page s1) s1)
      as (ps & r2 & Hloop & _).
    rewrite Hloop in Hrun.
    pose proof (after_probes_preserves ps s1 Hdisc) as Hs2.
    destruct r2 as [[start end_]|e].
    + eapply for_each_preserves; eauto.
    + by injection Hrun as <- <-.
  - specialize (Hdisc _ _ eq_refl). by injection Hrun as <- <-.
Qed.

End Preservation.

(** ** Tabs *)

Lemma tabs_opened_app (t u : list event) :
  tabs_opened (t ++ u) = (tabs_opened t + tabs_opened u)%nat.
Proof. unfold tabs_opened. by rewrite List.filter_app, length_app. Qed.

Lemma tabs_closed_app (t u : list event) :
  tabs_closed (t ++ u) = (tabs_closed t + tabs_closed u)%nat.
Proof. unfold tabs_closed. by rewrite List.filter_app, length_app. Qed.

Lemma tabs_of_detail (src : Source) (l : loc) (a : Article) :
  dd_close (src_detail src (url a)) = Ok tt ->
  match detail_opens src a with
  | Raise e => detail_trace src l a = [] /\ detail_return src l a = Raise e
  | Ok _ =>
      detail_return src l a = Ok l
      /\ tabs_opened (detail_trace src l a) = 1%nat
      /\ tabs_closed (detail_trace src l a) = 1%nat
      /\ head (detail_trace src l a) = Some EvNewTab
      /\ last (detail_trace src l a) = Some EvTabClose
  end.
Proof.
  intros Hclose. unfold detail_trace, detail_return. rewrite Hclose.
  destruct (detail_opens src a) as [[]|e]; [|done].
  by destruct (detail_text src (url a)).
Qed.

(** X6. On a forum whose detail tabs never fail to close: a detail fetch
    that raises has failed to print its line or to open its tab, and has
    no effect; any other opens one tab and closes it, as its first and its
    last effect, whether the news text was read or not, and returns the
    article. So however a run of [get_articles_with_date] ends, normally
    or with an exception, every detail tab it opened has been closed. *)
Theorem run_closes_every_tab (src : Source) (s : Fetcher) (r : result unit)
    (s' : Fetcher) :
  (forall u, dd_close (src_detail src u) = Ok tt) ->
  get_articles_with_date src s = Some (r, s') ->
  tabs_opened (trace s) = tabs_closed (trace s) ->
  tabs_opened (trace s') = tabs_closed (trace s')
  /\ forall l a s0,
       heap s0 !! l = Some a ->
       exists r1 evs s1,
         get_article_detail src l s0 = Some (r1, s1)
         /\ trace s1 = trace s0 ++ evs
         /\ ((evs = [] /\ exists e, r1 = Raise e)
             \/ (r1 = Ok l
                 /\ head evs = Some EvNewTab /\ last evs = Some EvTabClose
                 /\ tabs_opened evs = 1%nat /\ tabs_closed evs = 1%nat)).
Proof.
  intros Hclose Hrun Hs. split.
  - revert Hrun Hs.
    apply (run_preserves src
             (fun s => tabs_opened (trace s) = tabs_closed (trace s)));
      try done.
    + intros s0 pn H0. unfold after_get, with_trace. cbn [trace].
      rewrite tabs_opened_app, tabs_closed_app. cbn. lia.
    + intros s0 l a H0. unfold with_trace. cbn [trace].
      rewrite tabs_opened_app, tabs_closed_app.
      pose proof (tabs_of_detail src l a (Hclose _)) as Ht.
      destruct (detail_opens src a) as [[]|e].
      * destruct Ht as (_ & -> & -> & _). lia.
      * destruct Ht as [-> _]. cbn. lia.
  - intros l a s0 Hl.
    exists (detail_return src l a), (detail_trace src l a),
      (after_detail src l a s0).
    split; [by apply get_article_detail_eq|]. split; [done|].
    pose proof (tabs_of_detail src l a (Hclose _)) as Ht.
    destruct (detail_opens src a) as [[]|e].
    + right. destruct Ht as (? & ? & ? & ? & ?). done.
    + left. destruct Ht as [? ?]. split; [done|]. by exists e.
Qed.

Lemma run_closes_every_tab_witness :
  (forall u, dd_close (src_detail rally_source u) = Ok tt)
  /\ (exists s',
        get_articles_with_date rally_source (sample_fetcher 10)
        = Some (Raise MarkupError, s')
        /\ tabs_opened (trace s') = tabs_closed (trace s'))
  /\ tabs_opened (trace (sample_fetcher 10))
     = tabs_closed (trace (sample_fetcher 10)).
Proof.
  assert (Hclose : forall u, dd_close (src_detail rally_source u) = Ok tt).
  { intros u. cbn. unfold sample_detail. by destruct (String.eqb u _). }
  split; [exact Hclose|]. split; [|reflexivity].
  destruct (get_articles_with_date rally_source (sample_fetcher 10))
    as [[[[]|e] s']|] eqn:Hrun; try (exfalso; vm_compute in Hrun; discriminate).
  assert (He : e = MarkupError)
    by (vm_compute in Hrun; by injection Hrun as -> _).
  subst e. exists s'. split; [reflexivity|].
  apply (run_closes_every_tab rally_source (sample_fetcher 10)
           (Raise MarkupError) s' Hclose Hrun eq_refl).
Defined.

(** ** The window, page by page *)

Section Window.

Variable src : Source.

Lemma page_dates_Ok (t : nat) (pn : Z) (earliest latest : date) :
  page_dates src t pn = Ok (earliest, latest) ->
  exists entries,
    src_listing src t pn = Ok entries
    /\ entries_failure entries = None /\ entries <> [].
Proof.
  unfold page_dates. destruct (src_listing src t pn) as [entries|e]; [|done].
  destruct (entries_failure entries) as [e|] eqn:Hf; [done|].
  intros Hr. exists entries. split; [done|]. split; [done|].
  intros ->. discriminate.
Qed.

(** A search that ends on page [p] has loaded page [p - 1], unless it
    never left its first bound, and page [p], unless [p] lies past its
    last bound; and every page it loaded had dates to read then. *)
Lemma search_run_probed (d : date) (t : nat) (start end_ : Z) (ps : list Z)
    (r : result (Z * Z)) :
  search_run src d t start end_ ps r ->
  forall p e, r = Ok (p, e) ->
  start <= end_ + 1 ->
  (start < p -> p - 1 ∈ ps)
  /\ (p <= end_ -> p ∈ ps)
  /\ forall k q, ps !! k = Some q ->
       exists entries,
         src_listing src (t + k) q = Ok entries
         /\ entries_failure entries = None /\ entries <> [].
Proof.
  induction 1 as [t start end_ Hgt | t start end_ e' Hle Hp
                 | t start end_ earliest latest ps r Hle Hp Hrun IH];
    intros p e Hr Hinv.
  - injection Hr as <- <-. repeat split; try lia.
    intros k q Hq. discriminate.
  - discriminate.
  - destruct (narrow start end_ d earliest latest) as [a b] eqn:Hab.
    cbn [fst snd] in *.
    pose proof (narrow_bounds _ _ _ _ _ _ _ Hle Hab) as (Ha&Hb&Hab1&_&_).
    pose proof (mid_between _ _ Hle) as Hm.
    destruct (IH p e Hr Hab1) as (IH1 & IH2 & IH3).
    destruct (search_run_bounds src d (S t) a b ps r Hrun Hab1) as (Hbd & _).
    assert (Hloaded : forall k q, ((start + end_) / 2 :: ps) !! k = Some q ->
              exists entries,
                src_listing src (t + k) q = Ok entries
                /\ entries_failure entries = None /\ entries <> []).
    { intros [|k] q Hq.
      - injection Hq as <-. rewrite Nat.add_0_r. eapply page_dates_Ok; eauto.
      - replace (t + S k)%nat with (S t + k)%nat by lia. by apply IH3. }
    destruct (Hbd p e Hr) as [Hpb _].
    destruct (narrow_cases start end_ d earliest latest) as [E|E];
      rewrite E in Hab; injection Hab as <- <-.
    + split; [|split].
      * intros Hlt. apply elem_of_cons. right. by apply IH1.
      * intros Hpe. apply elem_of_cons.
        destruct (decide (p = (start + end_) / 2)) as [->|Hne];
          [by left | right; apply IH2; lia].
      * exact Hloaded.
    + split; [|split].
      * intros Hlt. apply elem_of_cons.
        destruct (decide (p - 1 = (start + end_) / 2)) as [->|Hne];
          [by left | right; apply IH1; lia].
      * intros Hpe. apply elem_of_cons. right. by apply IH2.
      * exact Hloaded.
Qed.

Lemma window_pages_cases (tp p : Z) :
  1 <= tp -> 1 <= p <= tp + 1 ->
  window_pages tp p
  = if p =? 1 then [1] else if p =? tp + 1 then [tp] else [p - 1; p].
Proof.
  intros Htp Hp. unfold window_pages, start_page_of, end_page_of, py_range.
  destruct (p =? 1) eqn:E1; [apply Z.eqb_eq in E1 as ->|apply Z.eqb_neq in E1].
  - replace (1 - 1 >? 0) with false by reflexivity.
    replace (1 - 1 + 1 <=? tp) with true by (symmetry; apply Z.leb_le; lia).
    reflexivity.
  - replace (p - 1 >? 0) with true by (symmetry; apply Z.gtb_gt; lia).
    destruct (p =? tp + 1) eqn:E2;
      [apply Z.eqb_eq in E2 as ->|apply Z.eqb_neq in E2].
    + replace (tp + 1 - 1 + 1 <=? tp) with false
        by (symmetry; apply Z.leb_gt; lia).
      replace (Z.to_nat (tp + 1 - (tp + 1 - 1))) with 1%nat by lia.
      cbn. f_equal. lia.
    + replace (p - 1 + 1 <=? tp) with true by (symmetry; apply Z.leb_le; lia).
      replace (Z.to_nat (p - 1 + 1 + 1 - (p - 1))) with 2%nat by lia.
      cbn. f_equal; [lia|]. f_equal. lia.
Qed.

End Window.

(** X7. After a search over [total_page >= 1] pages that ended on page
    [p], the window is page [p - 1] and page [p], less the one that is not
    a page ([0], or [total_page + 1]): one page or two. Every page of the
    window is a page the search has loaded, and its entries, at least one,
    all decoded then; the fetcher keeps no listing, so the run loads it
    again. *)
Theorem window_pages_were_loaded (src : Source) (s : Fetcher) (tp p e : Z)
    (s' : Fetcher) :
  1 <= tp ->
  search_loop src 1 tp s = Some (Ok (p, e), s') ->
  e = p - 1
  /\ py_range (start_page_of p) (end_page_of e tp + 1)
     = (if p =? 1 then [1] else if p =? tp + 1 then [tp] else [p - 1; p])
  /\ exists ps,
       listing_gets (trace s') = listing_gets (trace s) ++ ps
       /\ forall q, q ∈ py_range (start_page_of p) (end_page_of e tp + 1) ->
            q ∈ ps
            /\ exists k entries,
                 ps !! k = Some q
                 /\ src_listing src (loads_made s + k) q = Ok entries
                 /\ entries_failure entries = None /\ entries <> [].
Proof.
  intros Htp Hloop.
  destruct (search_loop_run src 1 tp s) as (ps & r & Hloop' & Hrun).
  rewrite Hloop in Hloop'. injection Hloop' as <- ->.
  destruct (search_run_bounds src _ _ _ _ _ _ Hrun ltac:(lia)) as (Hb & _).
  destruct (Hb p e eq_refl) as [Hp ->].
  destruct (search_run_probed src _ _ _ _ _ _ Hrun p (p - 1) eq_refl
              ltac:(lia)) as (H1 & H2 & H3).
  split; [done|].
  fold (window_pages tp p). rewrite (window_pages_cases tp p Htp Hp).
  split; [done|]. exists ps.
  split; [by rewrite trace_after_probes, listing_gets_gets|].
  intros q Hq.
  assert (Hin : q ∈ ps).
  { destruct (p =? 1) eqn:E1;
      [apply Z.eqb_eq in E1 as ->|apply Z.eqb_neq in E1].
    - apply list_elem_of_singleton in Hq as ->. apply H2. lia.
    - destruct (p =? tp + 1) eqn:E2;
        [apply Z.eqb_eq in E2 as ->|apply Z.eqb_neq in E2].
      + apply list_elem_of_singleton in Hq as ->.
        replace tp with (tp + 1 - 1) by lia. apply H1. lia.
      + apply elem_of_cons in Hq as [->|Hq]; [apply H1; lia|].
        apply list_elem_of_singleton in Hq as ->. apply H2. lia. }
  split; [done|].
  destruct (proj1 (list_elem_of_lookup _ _) Hin) as [k Hk].
  exists k. destruct (H3 k q Hk) as (entries & ? & ? & ?). by exists entries.
Qed.

Lemma window_pages_were_loaded_witness :
  1 <= 5
  /\ search_loop sample_source 1 5 (sample_fetcher 10)
     = Some (Ok (3, 2), after_probes sample_source [3; 1; 2] (sample_fetcher 10))
  /\ py_range (start_page_of 3) (end_page_of 2 5 + 1) = [2; 3].
Proof.
  assert (H : search_loop sample_source 1 5 (sample_fetcher 10)
              = Some (Ok (3, 2),
                      after_probes sample_source [3; 1; 2] (sample_fetcher 10)))
    by (vm_compute; reflexivity).
  split; [lia|]. split; [exact H|].
  apply (window_pages_were_loaded sample_source (sample_fetcher 10) 5 3 2 _
           ltac:(lia) H).
Defined.
(** ** What a run yields *)

Lemma omap_lookup_seq_app {A} (h rows : list A) :
  omap (fun l => (h ++ rows) !! l) (seq (length h) (length rows)) = rows.
Proof.
  revert h. induction rows as [|x rows IH]; intros h; [done|].
  cbn [length seq omap list_omap].
  rewrite list_lookup_middle by done. f_equal.
  specialize (IH (h ++ [x])).
  rewrite length_app, <- app_assoc in IH. cbn in IH.
  by replace (length h + 1)%nat with (S (length h)) in IH by lia.
Qed.

Lemma for_each_cons {A} (x : A) (xs : list A) (body : A -> M unit)
    (s : Fetcher) :
  for_each (x :: xs) body s
  = match body x s with
    | Some (Ok _, s1) => for_each xs body s1
    | Some (Raise e, s1) => Some (Raise e, s1)
    | None => None
    end.
Proof. reflexivity. Qed.

Section Yields.

Variable src : Source.

(** One page of the window whose entries all decode and whose detail
    fetches do not raise: its entries become articles at the end of the
    store, each goes through its detail fetch, and their references are
    yielded in the order of the listing. *)
Lemma fetch_page_full (page : Z) (posts : list RawPost) (s : Fetcher) :
  src_listing src (loads_made s) page = Ok (Ok <$> posts) ->
  (forall p, p ∈ posts ->
     detail_failure src (make_article (code s) p) = None) ->
  exists s',
    fetch_page src page s = Some (Ok tt, s')
    /\ out s' = out s ++ seq (length (heap s)) (length posts)
    /\ heap s' = heap s ++ (row_of src (code s) <$> posts)
    /\ listing_gets (trace s') = listing_gets (trace s) ++ [page]
    /\ code s' = code s.
Proof.
  intros Hposts Hclean.
  destruct (fetch_page_cases src page s)
    as (k & r & s' & Hfetch & Hout & Hcode & _ & _ & Hgets & Hold & Hcases).
  rewrite Hposts, decoded_Ok, entries_failure_Ok, length_fmap in Hcases.
  destruct Hcases as (_ & Hlen & _ & Hdone & Hend).
  destruct Hend as [[-> ->]|(p & e & Hp & He & _)].
  2:{ apply list_elem_of_lookup_2 in Hp. rewrite (Hclean p Hp) in He.
      discriminate. }
  exists s'. split; [exact Hfetch|]. split; [exact Hout|].
  split; [|split; [exact Hgets | exact Hcode]].
  apply list_eq. intros i.
  destruct (decide (i < length (heap s))%nat) as [Hlt|Hge].
  - rewrite lookup_app_l by done.
    destruct (lookup_lt_is_Some_2 _ _ Hlt) as [a Ha]. rewrite Ha.
    by apply Hold.
  - rewrite lookup_app_r by lia. rewrite list_lookup_fmap.
    destruct (posts !! (i - length (heap s))%nat) as [p|] eqn:Hp; cbn.
    + pose proof (lookup_lt_Some _ _ _ Hp) as Hi.
      destruct (Hdone _ p Hi Hp) as [Hnone Hheap].
      replace (length (heap s) + (i - length (heap s)))%nat with i
        in Hheap by lia.
      rewrite Hheap. f_equal.
      apply fetched_row. by apply detail_failure_opens.
    + apply lookup_ge_None in Hp. apply lookup_ge_None. lia.
Qed.

(** The pages of the window one after the other, when the entries of
    each, as it is loaded, are those of [posts] and no detail fetch
    raises. *)
Lemma for_each_fetch_pages (posts : Z -> list RawPost) (pages : list Z)
    (s : Fetcher) :
  (forall k q, pages !! k = Some q ->
     src_listing src (loads_made s + k) q = Ok (Ok <$> posts q)) ->
  (forall q p, q ∈ pages -> p ∈ posts q ->
     detail_failure src (make_article (code s) p) = None) ->
  exists s',
    for_each pages (fetch_page src) s = Some (Ok tt, s')
    /\ out s' = out s ++ seq (length (heap s)) (length (pages ≫= posts))
    /\ heap s' = heap s ++ (row_of src (code s) <$> (pages ≫= posts))
    /\ listing_gets (trace s') = listing_gets (trace s) ++ pages
    /\ code s' = code s.
Proof.
  revert s. induction pages as [|page pages IH]; intros s Hload Hclean.
  - exists s. cbn. by rewrite !app_nil_r.
  - destruct (fetch_page_full page (posts page) s)
      as (s1 & Hp & Hout1 & Hheap1 & Hgets1 & Hcode1).
    { specialize (Hload 0%nat page eq_refl).
      by rewrite Nat.add_0_r in Hload. }
    { intros p Hin. apply (Hclean page p); [apply list_elem_of_here | done]. }
    assert (Hloads : loads_made s1 = S (loads_made s)).
    { unfold loads_made. rewrite Hgets1, length_app. cbn. lia. }
    destruct (IH s1) as (s' & Hrest & Hout & Hheap & Hgets & Hcode).
    { intros k q Hq. rewrite Hloads.
      replace (S (loads_made s) + k)%nat with (loads_made s + S k)%nat by lia.
      by apply Hload. }
    { intros q p Hq Hin. rewrite Hcode1.
      apply (Hclean q p); [by apply list_elem_of_further | done]. }
    exists s'. rewrite for_each_cons, Hp. split; [exact Hrest|].
    change ((page :: pages) ≫= posts) with (posts page ++ (pages ≫= posts)).
    rewrite Hout, Hheap, Hgets, Hcode, Hout1, Hgets1, Hcode1, Hheap1.
    rewrite !length_app, !length_fmap, fmap_app, seq_app, <- !app_assoc.
    done.
Qed.

End Yields.

(** A run whose page count is found, whose search ends on page [p] and
    whose window loads and is fetched without an exception: where the new
    articles lie in the store and which references are yielded. *)
Lemma run_window (src : Source) (posts : Z -> list RawPost)
    (s s1 s2 : Fetcher) (p e : Z) :
  get_total_page src s = Some (Ok tt, s1) ->
  1 <= total_page s1 ->
  search_loop src 1 (total_page s1) s1 = Some (Ok (p, e), s2) ->
  (forall k q, window_pages (total_page s1) p !! k = Some q ->
     src_listing src (loads_made s2 + k) q = Ok (Ok <$> posts q)) ->
  (forall q a, q ∈ window_pages (total_page s1) p -> a ∈ posts q ->
     detail_failure src (make_article (code s) a) = None) ->
  exists s',
    get_articles_with_date src s = Some (Ok tt, s')
    /\ listing_gets (trace s')
       = listing_gets (trace s2) ++ window_pages (total_page s1) p
    /\ out s'
       = out s ++ seq (length (heap s2))
                    (length (window_pages (total_page s1) p ≫= posts))
    /\ heap s'
       = heap s2 ++ (row_of src (code s)
                     <$> (window_pages (total_page s1) p ≫= posts)).
Proof.
  intros Hdisc Htp Hloop Hload Hclean.
  destruct (search_loop_run src 1 (total_page s1) s1)
    as (ps & r & Hloop' & Hrun).
  rewrite Hloop in Hloop'. injection Hloop' as <- ->.
  destruct (search_run_bounds src _ _ _ _ _ _ Hrun ltac:(lia)) as (Hb & _).
  destruct (Hb p e eq_refl) as [Hp ->].
  rewrite get_total_page_eq in Hdisc.
  assert (Hs1 : out s1 = out s /\ code s1 = code s).
  { destruct (total_page s =? -1).
    - destruct (discovered src); [|discriminate].
      by injection Hdisc as <-.
    - by injection Hdisc as <-. }
  destruct Hs1 as [Hout1 Hcode1].
  destruct (for_each_fetch_pages src posts (window_pages (total_page s1) p)
              (after_probes src ps s1) Hload)
    as (s' & Hfor & Hout & Hheap & Hgets & Hcode).
  { intros q a Hq Ha. rewrite code_after_probes, Hcode1.
    by apply (Hclean q). }
  exists s'. split.
  - rewrite get_articles_with_date_eq, get_total_page_eq, Hdisc, Hloop.
    rewrite total_page_after_probes. exact Hfor.
  - split; [exact Hgets|].
    rewrite Hout, Hheap, out_after_probes, code_after_probes, Hout1, Hcode1.
    done.
Qed.

(** X8. When the page count is found, is at least 1, the search ends on
    page [p], every page of the window lists entries that all decode when
    the run loads it, and no detail fetch of such an entry raises (its
    line prints, its tab opens and closes), [get_articles_with_date] ends
    normally. After the search it loads the pages of the window in
    ascending order and nothing else, and it yields, in this order, one
    article for every entry of these pages, each with the fields of its
    entry and, where the detail fetch read a news text, that text as
    [content] (an empty [content] otherwise). *)
Theorem run_yields_window (src : Source) (posts : Z -> list RawPost)
    (s s1 s2 : Fetcher) (p e : Z) :
  get_total_page src s = Some (Ok tt, s1) ->
  1 <= total_page s1 ->
  search_loop src 1 (total_page s1) s1 = Some (Ok (p, e), s2) ->
  (forall k q, window_pages (total_page s1) p !! k = Some q ->
     src_listing src (loads_made s2 + k) q = Ok (Ok <$> posts q)) ->
  (forall q a, q ∈ window_pages (total_page s1) p -> a ∈ posts q ->
     detail_failure src (make_article (code s) a) = None) ->
  exists s' yielded,
    get_articles_with_date src s = Some (Ok tt, s')
    /\ listing_gets (trace s')
       = listing_gets (trace s2) ++ window_pages (total_page s1) p
    /\ out s' = out s ++ yielded
    /\ omap (fun l => heap s' !! l) yielded
       = (row_of src (code s)
          <$> (window_pages (total_page s1) p ≫= posts)).
Proof.
  intros Hdisc Htp Hloop Hload Hclean.
  destruct (run_window src posts s s1 s2 p e Hdisc Htp Hloop Hload Hclean)
    as (s' & Hrun & Hgets & Hout & Hheap).
  exists s', (seq (length (heap s2))
                (length (window_pages (total_page s1) p ≫= posts))).
  split; [exact Hrun|]. split; [exact Hgets|]. split; [exact Hout|].
  rewrite Hheap.
  set (rows := row_of src (code s) <$> _).
  replace (length (window_pages (total_page s1) p ≫= posts))
    with (length rows) by (unfold rows; apply length_fmap).
  apply omap_lookup_seq_app.
Qed.

Lemma sample_window_loads (s : Fetcher) :
  forall k q, [2; 3] !! k = Some q ->
    src_listing sample_source (loads_made s + k) q
    = Ok (Ok <$> sample_entries q).
Proof.
  intros [|[|k]] q Hq; [| |discriminate]; by injection Hq as <-.
Qed.

Lemma sample_window_clean :
  forall q a, q ∈ [2; 3] -> a ∈ sample_entries q ->
    detail_failure sample_source (make_article "600000" a) = None.
Proof.
  intros q a Hq Ha.
  apply elem_of_cons in Hq as [->|Hq];
    [|apply list_elem_of_singleton in Hq as ->];
    (apply elem_of_cons in Ha as [->|Ha];
     [|apply list_elem_of_singleton in Ha as ->]); by vm_compute.
Qed.

Lemma run_yields_window_witness :
  get_total_page sample_source (sample_fetcher 10)
  = Some (Ok tt, with_total_page 5 (after_get 1 (sample_fetcher 10)))
  /\ 1 <= 5
  /\ search_loop sample_source 1 5
       (with_total_page 5 (after_get 1 (sample_fetcher 10)))
     = Some (Ok (3, 2),
             after_probes sample_source [3; 1; 2]
               (with_total_page 5 (after_get 1 (sample_fetcher 10))))
  /\ exists s' yielded,
       get_articles_with_date sample_source (sample_fetcher 10)
       = Some (Ok tt, s')
       /\ out s' = [] ++ yielded
       /\ omap (fun l => heap s' !! l) yielded
          = (row_of sample_source "600000"
             <$> ([2; 3] ≫= sample_entries)).
Proof.
  assert (H : search_loop sample_source 1 5
                (with_total_page 5 (after_get 1 (sample_fetcher 10)))
              = Some (Ok (3, 2),
                      after_probes sample_source [3; 1; 2]
                        (with_total_page 5 (after_get 1 (sample_fetcher 10)))))
    by (vm_compute; reflexivity).
  split; [reflexivity|]. split; [lia|]. split; [exact H|].
  destruct (run_yields_window sample_source sample_entries (sample_fetcher 10)
              _ _ 3 2 eq_refl ltac:(cbn; lia) H (sample_window_loads _)
              sample_window_clean)
    as (s' & ys & H1 & _ & H2 & H3).
  exists s', ys. split; [exact H1|]. split; [exact H2 | exact H3].
Defined.

(** ** Fetching the detail of an article again *)

(** X9. A second detail fetch of an article, from a forum that shows the
    same detail page and a console that does the same with the same line,
    ends as the first did and leaves every article as the first fetch
    left it: neither the line printed nor the address of an article
    depends on its [content], so the same text is read and assigned
    again. *)
Theorem detail_fetch_twice (src : Source) (l : loc) (a : Article)
    (s : Fetcher) :
  heap s !! l = Some a ->
  exists r s1 s2,
    get_article_detail src l s = Some (r, s1)
    /\ get_article_detail src l s1 = Some (r, s2)
    /\ heap s2 = heap s1
    /\ out s2 = out s /\ total_page s2 = total_page s.
Proof.
  intros Hl.
  assert (Hlt : (l < length (heap s))%nat) by (eapply lookup_lt_Some; eauto).
  exists (detail_return src l a), (after_detail src l a s),
    (after_detail src l (fetched src a) (after_detail src l a s)).
  split; [by apply get_article_detail_eq|]. split.
  - rewrite <- (detail_return_fetched src l a).
    apply get_article_detail_eq. cbn. by apply list_lookup_insert_eq.
  - split; [|done]. cbn. rewrite fetched_idem. apply list_insert_insert_eq.
Qed.

Lemma detail_fetch_twice_witness :
  heap sample_page2 !! 0%nat
  = Some (make_article "600000" (sample_post "c" 18))
  /\ exists r s1 s2,
       get_article_detail sample_source 0%nat sample_page2 = Some (r, s1)
       /\ get_article_detail sample_source 0%nat s1 = Some (r, s2)
       /\ heap s2 = heap s1.
Proof.
  split; [reflexivity|].
  destruct (detail_fetch_twice sample_source 0%nat
              (make_article "600000" (sample_post "c" 18)) sample_page2
              eq_refl) as (r & s1 & s2 & H1 & H2 & H3 & _).
  exists r, s1, s2. split; [exact H1|]. split; [exact H2 | exact H3].
Defined.

(** ** Addresses *)

Lemma string_app_length (s t : string) :
  String.length (s +:+ t) = (String.length s + String.length t)%nat.
Proof.
  induction s as [|c s IH]; [done|].
  change (String c s +:+ t) with (String c (s +:+ t)).
  cbn [String.length]. by rewrite IH.
Qed.

Lemma string_app_inj_r (s1 s2 t : string) : s1 +:+ t = s2 +:+ t -> s1 = s2.
Proof.
  revert s2. induction s1 as [|c s1 IH]; intros [|c2 s2] H.
  - done.
  - apply (f_equal String.length) in H.
    rewrite !string_app_length in H. cbn in H. lia.
  - apply (f_equal String.length) in H.
    rewrite !string_app_length in H. cbn in H. lia.
  - change (String c (s1 +:+ t) = String c2 (s2 +:+ t)) in H.
    injection H as -> H. f_equal. by apply IH.
Qed.

(** X10. For one stock code, listing pages with different numbers have
    different addresses, posts with different ids have different
    addresses, and no listing page has the address of a post or of the
    error page. *)
Theorem addresses_distinct (c : string) :
  (forall pn pn', get_url c pn = get_url c pn' -> pn = pn')
  /\ (forall post post',
        get_article_url c post = get_article_url c post' -> post = post')
  /\ (forall c' pn post, get_url c pn <> get_article_url c' post)
  /\ (forall pn, get_url c pn <> error_url).
Proof.
  split; [|split; [|split]].
  - intros pn pn' H. unfold get_url in H.
    apply String.app_inj in H. apply String.app_inj in H.
    apply string_app_inj_r in H. by apply pretty_Z_inj in H.
  - intros post post' H. unfold get_article_url in H.
    do 3 apply String.app_inj in H. by apply string_app_inj_r in H.
  - intros c' pn post H. unfold get_url, get_article_url, start_url in H.
    cbn in H. discriminate.
  - intros pn H. unfold get_url, start_url, error_url in H.
    cbn in H. discriminate.
Qed.

(** ** The loop over the workbook *)

Section Main.

Variable forum : string -> Source.

Lemma main_app (pre rest : list (string * datetime))
    (files : gmap string (list Article)) :
  main forum (pre ++ rest) files
  = match main forum pre files with
    | Some (Ok _, files1) => main forum rest files1
    | other => other
    end.
Proof.
  revert files. induction pre as [|[c dt] pre IH]; intros files; [done|].
  cbn [app main].
  destruct (get_articles_with_date _ _) as [[[[]|e] s]|]; [| |done].
  - apply IH.
  - destruct (caught e); [apply IH | done].
Qed.

Lemma output_name_inj (c c' : string) :
  output_name c = output_name c' -> c = c'.
Proof. apply string_app_inj_r. Qed.

End Main.

(** X11. The loop over the workbook never removes a file and touches no
    file but those named after the codes of its rows. It ends with an
    exception only if that exception is none of the three it catches
    ([PageNotFound], [ElementNotFoundError], [WaitTimeoutError]); and when
    it ends normally, there is a file for the code of every row. *)
Theorem main_outcome (forum : string -> Source)
    (rows : list (string * datetime)) (files : gmap string (list Article))
    (r : result unit) (files' : gmap string (list Article)) :
  main forum rows files = Some (r, files') ->
  (forall name, is_Some (files !! name) -> is_Some (files' !! name))
  /\ (forall name,
        (forall c dt, (c, dt) ∈ rows -> output_name c <> name) ->
        files' !! name = files !! name)
  /\ match r with
     | Ok _ => forall c dt, (c, dt) ∈ rows -> is_Some (files' !! output_name c)
     | Raise e => caught e = false
     end.
Proof.
  revert files. induction rows as [|[c dt] rows IH]; intros files.
  - intros [= <- <-]. repeat split; try done.
    intros c dt Hin. by apply elem_of_nil in Hin.
  - cbn [main].
    destruct (get_articles_with_date _ _) as [[r1 s]|]; [|discriminate].
    set (files1 := <[output_name c := rows_written s]> files).
    assert (Hkeep : forall name, is_Some (files !! name) ->
                                 is_Some (files1 !! name)).
    { intros name Hn. unfold files1.
      destruct (decide (output_name c = name)) as [<-|Hne].
      - rewrite lookup_insert_eq. by eexists.
      - by rewrite lookup_insert_ne. }
    assert (Hframe : forall name, output_name c <> name ->
                                  files1 !! name = files !! name).
    { intros name Hne. unfold files1. by rewrite lookup_insert_ne. }
    assert (Hrest : main forum rows files1 = Some (r, files') ->
              (forall name, is_Some (files !! name) -> is_Some (files' !! name))
              /\ (forall name,
                    (forall c0 dt0, (c0, dt0) ∈ (c, dt) :: rows ->
                                    output_name c0 <> name) ->
                    files' !! name = files !! name)
              /\ match r with
                 | Ok _ => forall c0 dt0, (c0, dt0) ∈ (c, dt) :: rows ->
                                          is_Some (files' !! output_name c0)
                 | Raise e => caught e = false
                 end).
    { intros Hm. destruct (IH files1 Hm) as (IH1 & IH2 & IH3).
      split; [|split].
      - intros name Hn. apply IH1. by apply Hkeep.
      - intros name Hn. rewrite IH2.
        + apply Hframe. apply (Hn c dt). apply list_elem_of_here.
        + intros c0 dt0 Hin. apply (Hn c0 dt0). by apply list_elem_of_further.
      - destruct r as [[]|e]; [|done].
        intros c0 dt0 [[= -> ->]|Hin]%elem_of_cons; [|by eapply IH3].
        apply IH1. unfold files1. rewrite lookup_insert_eq. by eexists. }
    destruct r1 as [[]|e]; [exact Hrest|].
    destruct (caught e) eqn:Hc; [exact Hrest|].
    intros [= <- <-]. split; [exact Hkeep|]. split; [|exact Hc].
    intros name Hn. apply Hframe. apply (Hn c dt). apply list_elem_of_here.
Qed.

(** X12. A row whose run raises an exception the loop does not catch
    ends the loop there: the exception leaves the script, the file of
    that row holds the rows written until then, and the rows after it are
    never looked at. *)
Theorem main_stops_at_uncaught (forum : string -> Source)
    (pre rest : list (string * datetime)) (c : string) (dt : datetime)
    (files files1 : gmap string (list Article)) (e : exn) (s : Fetcher) :
  main forum pre files = Some (Ok tt, files1) ->
  get_articles_with_date (forum c) (Fetcher_init c (datetime_date dt))
  = Some (Raise e, s) ->
  caught e = false ->
  main forum (pre ++ (c, dt) :: rest) files
  = Some (Raise e, <[output_name c := rows_written s]> files1).
Proof.
  intros Hpre Hrun Hc. rewrite main_app, Hpre. cbn [main].
  by rewrite Hrun, Hc.
Qed.

(** X13. A failure to find the page count decides the fate of the row: the
    file of the row is left with its header line alone, and the loop goes
    on to the next row when the failure is one of the three exceptions it
    catches (the forum does not know the code: [PageNotFound]; the pager
    never shows: [WaitTimeoutError]) and ends with that exception
    otherwise (a pager of fewer than two entries: [IndexError]; a last
    but one entry that is no number: [ValueError]). *)
Theorem main_after_failed_discovery (forum : string -> Source)
    (c : string) (dt : datetime) (rest : list (string * datetime))
    (files : gmap string (list Article)) (e : exn) :
  discovered (forum c) = Raise e ->
  main forum ((c, dt) :: rest) files
  = if caught e then main forum rest (<[output_name c := []]> files)
    else Some (Raise e, <[output_name c := []]> files).
Proof.
  intros Hd. cbn [main].
  rewrite get_articles_with_date_eq, get_total_page_eq.
  change (total_page (Fetcher_init c (datetime_date dt)) =? -1) with true.
  cbv iota. rewrite Hd. reflexivity.
Qed.

Lemma main_outcome_witness :
  exists r files',
    main sample_forum [("000001", sample_cell 10); ("600000", sample_cell 10)]
      ∅ = Some (r, files')
    /\ (forall name,
          (forall c dt,
             (c, dt) ∈ [("000001", sample_cell 10); ("600000", sample_cell 10)]
             -> output_name c <> name) ->
          files' !! name = (∅ : gmap string (list Article)) !! name).
Proof.
  destruct (main sample_forum
              [("000001", sample_cell 10); ("600000", sample_cell 10)] ∅)
    as [[r files']|] eqn:H; [|exfalso; vm_compute in H; discriminate].
  exists r, files'. split; [reflexivity|].
  apply (main_outcome sample_forum _ ∅ r files' H).
Defined.

Lemma main_stops_at_uncaught_witness :
  main sample_forum [] ∅ = Some (Ok tt, ∅)
  /\ caught AttributeError = false
  /\ exists s,
       get_articles_with_date (sample_forum "300000")
         (Fetcher_init "300000" (datetime_date (sample_cell 10)))
       = Some (Raise AttributeError, s)
       /\ main sample_forum
            ([] ++ ("300000", sample_cell 10) :: [("600000", sample_cell 10)])
            ∅
          = Some (Raise AttributeError,
                  <[output_name "300000" := rows_written s]> ∅).
Proof.
  split; [reflexivity|]. split; [reflexivity|].
  destruct (get_articles_with_date (sample_forum "300000")
              (Fetcher_init "300000" (datetime_date (sample_cell 10))))
    as [[[[]|e] s]|] eqn:H; try (exfalso; vm_compute in H; discriminate).
  assert (He : e = AttributeError)
    by (vm_compute in H; by injection H as -> _).
  subst e. exists s. split; [reflexivity|].
  apply (main_stops_at_uncaught sample_forum [] [("600000", sample_cell 10)]
           "300000" (sample_cell 10) ∅ ∅ AttributeError s eq_refl H eq_refl).
Defined.

Lemma main_after_failed_discovery_witness :
  discovered (sample_forum "000001") = Raise PageNotFound
  /\ main sample_forum [("000001", sample_cell 10)] ∅
     = Some (Ok tt, <[output_name "000001" := []]> ∅).
Proof.
  split; [reflexivity|].
  apply (main_after_failed_discovery sample_forum "000001" (sample_cell 10)
           [] ∅ PageNotFound eq_refl).
Defined.



(** X15. Opening the file of a row replaces what an earlier row of the
    same code has written: when the loop ends normally, the file of a code
    holds the lines of the last row with that code, and of no other. *)
Theorem main_last_row_wins (forum : string -> Source)
    (pre post : list (string * datetime)) (c : string) (dt : datetime)
    (files files' : gmap string (list Article)) :
  main forum (pre ++ (c, dt) :: post) files = Some (Ok tt, files') ->
  (forall c' dt', (c', dt') ∈ post -> c' <> c) ->
  exists r s,
    get_articles_with_date (forum c) (Fetcher_init c (datetime_date dt))
    = Some (r, s)
    /\ files' !! output_name c = Some (rows_written s).
Proof.
  intros Hmain Hpost. rewrite main_app in Hmain.
  destruct (main forum pre files) as [[[[]|e0] files1]|]; try discriminate.
  cbn [main] in Hmain.
  destruct (get_articles_with_date _ _) as [[r s]|] eqn:Hrun; [|discriminate].
  exists r, s. split; [done|].
  assert (Hrest : main forum post (<[output_name c := rows_written s]> files1)
                  = Some (Ok tt, files')).
  { destruct r as [[]|e]; [done|]. by destruct (caught e). }
  assert (Hframe : forall rows fs fs',
            main forum rows fs = Some (Ok tt, fs') ->
            (forall c' dt', (c', dt') ∈ rows -> c' <> c) ->
            fs' !! output_name c = fs !! output_name c).
  { clear. induction rows as [|[c1 dt1] rows IH]; intros fs fs' Hm Hne.
    - by injection Hm as <-.
    - cbn [main] in Hm.
      destruct (get_articles_with_date _ _) as [[r1 s1]|]; [|discriminate].
      assert (Hm' : main forum rows (<[output_name c1 := rows_written s1]> fs)
                    = Some (Ok tt, fs')).
      { destruct r1 as [[]|e]; [done|]. by destruct (caught e). }
      rewrite (IH _ _ Hm').
      + apply lookup_insert_ne. intros Heq%output_name_inj.
        by apply (Hne c1 dt1 ltac:(apply list_elem_of_here)).
      + intros c' dt' Hin. apply (Hne c' dt'). by apply list_elem_of_further. }
  rewrite (Hframe _ _ _ Hrest Hpost). apply lookup_insert_eq.
Qed.

Lemma main_last_row_wins_witness :
  exists files',
    main sample_forum
      ([("600000", sample_cell 18)] ++ ("600000", sample_cell 10) :: []) ∅
    = Some (Ok tt, files')
    /\ (forall c' dt', (c', dt') ∈ ([] : list (string * datetime)) ->
                       c' <> "600000")
    /\ exists r s,
         get_articles_with_date (sample_forum "600000")
           (Fetcher_init "600000" (datetime_date (sample_cell 10)))
         = Some (r, s)
         /\ files' !! output_name "600000" = Some (rows_written s).
Proof.
  assert (Hpost : forall c' dt', (c', dt') ∈ ([] : list (string * datetime)) ->
                                 c' <> "600000").
  { intros c' dt' Hin. by apply elem_of_nil in Hin. }
  destruct (main sample_forum
              ([("600000", sample_cell 18)]
               ++ ("600000", sample_cell 10) :: []) ∅)
    as [[[[]|e] files']|] eqn:H;
    try (exfalso; vm_compute in H; discriminate).
  exists files'. split; [reflexivity|]. split; [exact Hpost|].
  apply (main_last_row_wins sample_forum [("600000", sample_cell 18)] []
           "600000" (sample_cell 10) ∅ files' H Hpost).
Defined.

